(** * contexts/solana-connection-config.tsx

    A shallow embedding of the connection-configuration provider and of the
    transaction-submission helper, with the properties of their
    specification.

    Layout: the JavaScript data the file handles (strings as sequences of
    UTF-16 code units, the global regular-expression scan), the log
    scraping of [getErrorForTransaction], the asynchronous workflow of
    [sendTransaction] against its collaborators, and the provider's hooks
    as a state machine; the theorems follow the definitions. *)

From Stdlib Require Import NArith List String Ascii Bool Arith Lia.
From stdpp Require Import base option list gmap.
Import ListNotations.

Local Open Scope nat_scope.
Local Open Scope list_scope.

(* ===================================================================== *)
(** ** JavaScript strings *)
(* ===================================================================== *)

(** A JavaScript string is a finite sequence of UTF-16 code units. *)
Abbreviation jsstring := (list N).

(** Code units of a literal written in the source. *)
Fixpoint str (s : string) : jsstring :=
  match s with
  | EmptyString => []
  | String a r => N_of_ascii a :: str r
  end.
Arguments str : simpl never.

(** ECMAScript LineTerminator: LF, CR, LS (U+2028), PS (U+2029).  Without
    the [s] flag, [.] matches every code unit but these. *)
Definition isLineTerminator (c : N) : bool :=
  (c =? 10)%N || (c =? 13)%N || (c =? 8232)%N || (c =? 8233)%N.

(** [stripPrefix lit s]: the rest of [s] after the literal [lit], when [s]
    starts with it. *)
Fixpoint stripPrefix (lit s : jsstring) : option jsstring :=
  match lit with
  | [] => Some s
  | a :: lit' =>
      match s with
      | [] => None
      | c :: s' => if (a =? c)%N then stripPrefix lit' s' else None
      end
  end.

(** Greedy [.*]: the longest run of code units that are not line
    terminators. *)
Fixpoint dotStar (s : jsstring) : jsstring :=
  match s with
  | [] => []
  | c :: s' => if isLineTerminator c then [] else c :: dotStar s'
  end.

(* ===================================================================== *)
(** ** Global regular-expression scanning *)
(* ===================================================================== *)

Module RegExp.

(** A compiled pattern: matching [s] at position [i] either fails or
    gives the end index of the match and the capture groups (group 0,
    the whole match, first). *)
Definition matcher := jsstring -> nat -> option (nat * list jsstring).

(** The result array of [exec]: [m.index] and [m[0..]]. *)
Record MatchResult := mkMatch { index : nat; groups : list jsstring }.

(** The forward search of RegExpBuiltinExec for a global pattern: try
    position [i], then [i+1], ... for the [n] positions that remain up
    to and including the end of the string. *)
Fixpoint searchFrom (rx : matcher) (s : jsstring) (i n : nat)
  : option (nat * nat * list jsstring) :=
  match n with
  | 0 => None
  | S n' =>
      match rx s i with
      | Some (e, caps) => Some (i, e, caps)
      | None => searchFrom rx s (S i) n'
      end
  end.

(** [regex.exec(s)] for a pattern with the [g] flag, as a function of
    [regex.lastIndex]; it returns the match (or null) and the new
    [lastIndex]: the end of the match, or 0 after a failure. *)
Definition exec (rx : matcher) (s : jsstring) (lastIndex : nat)
  : option MatchResult * nat :=
  if length s <? lastIndex then (None, 0)
  else
    match searchFrom rx s lastIndex (S (length s - lastIndex)) with
    | Some (i, e, caps) => (Some (mkMatch i caps), e)
    | None => (None, 0)
    end.

(** The pattern of line 130, with flags [gm]: the literal [Error: ]
    followed by one capture group holding a greedy dot-star.  The [m]
    flag only changes [^] and [$], which the pattern does not use. *)
Definition ERROR_LITERAL : jsstring := Eval cbv in str "Error: ".

Definition errorRegex : matcher := fun s i =>
  match stripPrefix ERROR_LITERAL (drop i s) with
  | Some rest =>
      let cap := dotStar rest in
      Some (i + length ERROR_LITERAL + length cap, [ERROR_LITERAL ++ cap; cap])
  | None => None
  end.

(** A pattern that matches the empty string everywhere, such as [/x*/g]
    on a string without [x]; used to exercise the zero-width guard. *)
Definition emptyRegex : matcher := fun s i => Some (i, [[]]).

End RegExp.

(* ===================================================================== *)
(** ** Log scraping: the loop of [getErrorForTransaction] *)
(* ===================================================================== *)

Module Scan.
Import RegExp.

(** Lines 132-141, one [while] iteration per unit of fuel:
[[
    while ((m = regex.exec(log)) !== null) {
      if (m.index === regex.lastIndex) { regex.lastIndex++ }
      if (m.length > 1) { errors.push(m[1]) }
    }
]]
    [None] means the fuel ran out before [exec] returned null. *)
Fixpoint scanLoop (rx : matcher) (fuel : nat) (log : jsstring)
    (lastIndex : nat) (errors : list jsstring) : option (list jsstring) :=
  match fuel with
  | 0 => None
  | S fuel' =>
      match exec rx log lastIndex with
      | (None, _) => Some errors
      | (Some m, lastIndex1) =>
          let lastIndex2 :=
            if index m =? lastIndex1 then S lastIndex1 else lastIndex1 in
          let errors' :=
            if 1 <? length (groups m)
            then errors ++ [nth 1 (groups m) []]
            else errors in
          scanLoop rx fuel' log lastIndex2 errors'
      end
  end.

(** The same loop with the guard of lines 134-136 removed. *)
Fixpoint scanLoopUnguarded (rx : matcher) (fuel : nat) (log : jsstring)
    (lastIndex : nat) (errors : list jsstring) : option (list jsstring) :=
  match fuel with
  | 0 => None
  | S fuel' =>
      match exec rx log lastIndex with
      | (None, _) => Some errors
      | (Some m, lastIndex1) =>
          let errors' :=
            if 1 <? length (groups m)
            then errors ++ [nth 1 (groups m) []]
            else errors in
          scanLoopUnguarded rx fuel' log lastIndex1 errors'
      end
  end.

(** Iterations that always suffice for a log of this length. *)
Definition scanBound (log : jsstring) : nat := length log + 2.

(** The body of the [forEach] callback (lines 129-142): a fresh regex
    object ([lastIndex] 0) scans one log message and appends to the
    shared [errors] array. *)
Definition scanLog (log : jsstring) (errors : list jsstring)
  : option (list jsstring) :=
  scanLoop errorRegex (scanBound log) log 0 errors.

(** [tx.meta.logMessages.forEach(...)] over the shared array. *)
Fixpoint scanLogs (logs : list jsstring) (errors : list jsstring)
  : option (list jsstring) :=
  match logs with
  | [] => Some errors
  | log :: logs' =>
      match scanLog log errors with
      | Some errors' => scanLogs logs' errors'
      | None => None
      end
  end.

(** *** What the specification speaks of, and what the scan yields *)

(** Positions of a log message at which the text [Error: ] occurs. *)
Fixpoint occurrences (s : jsstring) (i : nat) : list nat :=
  match s with
  | [] => []
  | _ :: s' =>
      match stripPrefix ERROR_LITERAL s with
      | Some _ => i :: occurrences s' (S i)
      | None => occurrences s' (S i)
      end
  end.

(** How many times the text occurs in all the messages. *)
Definition occurrenceCount (logs : list jsstring) : nat :=
  length (concat (map (fun log => occurrences log 0) logs)).

(** The lines of a log message: the maximal runs between line
    terminators. *)
Fixpoint splitLines (s : jsstring) : list jsstring :=
  match s with
  | [] => [[]]
  | c :: s' =>
      if isLineTerminator c then [] :: splitLines s'
      else match splitLines s' with
           | l :: ls => (c :: l) :: ls
           | [] => [[c]]
           end
  end.

(** The text after the first [Error: ] of a line, if there is one. *)
Fixpoint afterFirstError (line : jsstring) : option jsstring :=
  match stripPrefix ERROR_LITERAL line with
  | Some rest => Some rest
  | None =>
      match line with
      | [] => None
      | _ :: line' => afterFirstError line'
      end
  end.

(** One entry per line that mentions [Error: ]: the rest of that line
    after the first mention. *)
Definition errorsOfLog (log : jsstring) : list jsstring :=
  omap afterFirstError (splitLines log).

Definition errorsOfLogs (logs : list jsstring) : list jsstring :=
  concat (map errorsOfLog logs).

End Scan.

(* ===================================================================== *)
(** ** The web3 data that [sendTransaction] handles *)
(* ===================================================================== *)

(** The data of [@solana/web3.js] as far as this file handles it.  The
    library is not part of the repository: what its methods [setSigners],
    [partialSign] and [serialize] do with a transaction, and when they
    throw, is left to the collaborators of [Async.Env]. *)
Module Web3.

(** A public key wraps a 256-bit number. *)
Record PublicKey := mkPublicKey { pk_bn : N }.

Definition PublicKey_equals (a b : PublicKey) : bool :=
  (pk_bn a =? pk_bn b)%N.

Record Account := mkAccount { publicKey : PublicKey; secretKey : list N }.

Record AccountMeta := mkAccountMeta
  { pubkey : PublicKey; isSigner : bool; isWritable : bool }.

Record TransactionInstruction := mkInstruction
  { ix_keys : list AccountMeta; ix_programId : PublicKey; ix_data : list N }.

Inductive Commitment := Max | Recent | Root | Single | SingleGossip.

(** A signature, kept symbolic: the secret key that produced it. *)
Record Signature := mkSignature { signedWith : list N }.

Record SignaturePubkeyPair := mkPair
  { sp_signature : option Signature; sp_publicKey : PublicKey }.

Record Transaction := mkTransaction
  { signatures : list SignaturePubkeyPair;
    instructions : list TransactionInstruction;
    recentBlockhash : option jsstring }.

(** [new Transaction()] *)
Definition Transaction_new : Transaction := mkTransaction [] [] None.

(** [transaction.add(instruction)] *)
Definition add (t : Transaction) (i : TransactionInstruction) : Transaction :=
  mkTransaction (signatures t) (instructions t ++ [i]) (recentBlockhash t).

(** [transaction.recentBlockhash = b] *)
Definition set_recentBlockhash (b : jsstring) (t : Transaction) : Transaction :=
  mkTransaction (signatures t) (instructions t) (Some b).


(** What the RPC methods answer. *)
Record BlockhashResponse := mkBlockhashResponse
  { blockhash : jsstring; lamportsPerSignature : N }.

(** [TransactionError = {} | string]: an object (payload kept opaque) or
    a string. *)
Inductive TransactionError :=
| ErrObject (payload : jsstring)
| ErrString (s : jsstring).

Record SignatureResult := mkSignatureResult { err : option TransactionError }.

Record RpcResponseAndContext (A : Type) := mkRpcResponse
  { context_slot : N; value : A }.
Arguments mkRpcResponse {A}.
Arguments context_slot {A}.
Arguments value {A}.

Record ParsedTransactionMeta := mkMeta
  { meta_fee : N;
    meta_err : option TransactionError;
    logMessages : option (list jsstring) }.

Record ParsedConfirmedTransaction := mkParsed
  { slot : N; meta : option ParsedTransactionMeta }.

Record SendOptions := mkSendOptions
  { skipPreflight : bool; commitment : Commitment }.

(** Modelled from the spec: the interface [WalletAdapter] of
    [./solana-web3] is not among the sources at hand.  The spec asks of the
    signing capability that it expose a public key and a sign operation;
    the key is null while the wallet is not connected, and signing is an
    interaction (see [Async.Env]). *)
Record WalletAdapter := mkWallet { wallet_publicKey : option PublicKey }.

(** An opaque reference to a Connection object. *)
Record Connection := mkConnection { conn_id : nat }.

(** JavaScript truthiness of [status?.err]: null, undefined and the
    empty string are falsy, objects and other strings truthy. *)
Definition truthy_err (e : option TransactionError) : bool :=
  match e with
  | None => false
  | Some (ErrObject _) => true
  | Some (ErrString s) => negb (length s =? 0)
  end.

Definition status_err (status : option SignatureResult) : bool :=
  match status with
  | None => false
  | Some st => truthy_err (err st)
  end.

End Web3.

(* ===================================================================== *)
(** ** Asynchronous code against its collaborators *)
(* ===================================================================== *)

Module Async.
Import Web3.

(** A JavaScript [Error]. *)
Record Error := mkError { message : jsstring }.

(** A promise settles with a value or rejects with an error. *)
Inductive settled (A : Type) :=
| Fulfilled (a : A)
| Rejects (e : Error).
Arguments Fulfilled {A}.
Arguments Rejects {A}.

(** Modelled from the spec: [notify] of [@/contexts/theme/components] and
    [ExplorerLink] are not among the sources at hand; the spec names them
    as the notification and link-rendering collaborators.  What [notify]
    is handed here: title, the extracted error lines, the explorer link's
    address, type. *)
Record Notification := mkNotification
  { note_title : jsstring;
    note_errors : list jsstring;
    note_address : jsstring;
    note_type : jsstring }.

(** One interaction with a collaborator: the request and its answer. *)
Inductive event :=
| EGetRecentBlockhash (c : Connection) (cm : Commitment)
    (r : settled BlockhashResponse)
| ESignTransaction (w : WalletAdapter) (t : Transaction)
    (r : settled Transaction)
| ESerialize (t : Transaction) (r : settled (list N))
| ESendRawTransaction (c : Connection) (raw : list N) (o : SendOptions)
    (r : settled jsstring)
| EConfirmTransaction (c : Connection) (txid : jsstring) (cm : Commitment)
    (r : settled (RpcResponseAndContext (option SignatureResult)))
| EGetParsedConfirmedTransaction (c : Connection) (txid : jsstring)
    (r : settled (option ParsedConfirmedTransaction))
| ENotify (n : Notification) (r : settled unit).

(** The collaborators: RPC transport, wallet, transaction serializer,
    notification renderer, and the [JSON.stringify] builtin.  An answer
    may depend on every interaction so far.  The last two fields are the
    library methods [transaction.setSigners(...keys)] and
    [transaction.partialSign(...signers)]: the transaction they leave
    behind, or the error they throw. *)
Record Env := mkEnv
  { rpc_getRecentBlockhash :
      list event -> Connection -> Commitment -> settled BlockhashResponse;
    wallet_signTransaction :
      list event -> WalletAdapter -> Transaction -> settled Transaction;
    tx_serialize : list event -> Transaction -> settled (list N);
    rpc_sendRawTransaction :
      list event -> Connection -> list N -> SendOptions -> settled jsstring;
    rpc_confirmTransaction :
      list event -> Connection -> jsstring -> Commitment ->
      settled (RpcResponseAndContext (option SignatureResult));
    rpc_getParsedConfirmedTransaction :
      list event -> Connection -> jsstring ->
      settled (option ParsedConfirmedTransaction);
    ui_notify : list event -> Notification -> settled unit;
    JSON_stringify : option SignatureResult -> jsstring;
    lib_setSigners : list PublicKey -> Transaction -> settled Transaction;
    lib_partialSign : list Account -> Transaction -> settled Transaction }.

(** How an [async] function ends: it returns, it throws an error of its
    own, an error that is not its own propagates (a collaborator's
    rejection through an [await], or a throw of a library method), or (in
    the model only) a loop exhausts its fuel. *)
Inductive outcome (A : Type) :=
| Returned (a : A)
| Thrown (e : Error)
| Propagated (e : Error)
| OutOfFuel.
Arguments Returned {A}.
Arguments Thrown {A}.
Arguments Propagated {A}.
Arguments OutOfFuel {A}.

(** Computations read the collaborators and extend the history. *)
Definition M (A : Type) : Type := Env -> list event -> outcome A * list event.

Definition ret {A} (a : A) : M A := fun _ h => (Returned a, h).

Definition throw {A} (e : Error) : M A := fun _ h => (Thrown e, h).

Definition diverge {A} : M A := fun _ h => (OutOfFuel, h).

Definition bind {A B} (m : M A) (k : A -> M B) : M B := fun env h =>
  match m env h with
  | (Returned a, h') => k a env h'
  | (Thrown e, h') => (Thrown e, h')
  | (Propagated e, h') => (Propagated e, h')
  | (OutOfFuel, h') => (OutOfFuel, h')
  end.

(** [await] of a collaborator's promise: ask, record, resume or
    propagate. *)
Definition await {A} (ask : Env -> list event -> settled A)
    (record : settled A -> event) : M A := fun env h =>
  let r := ask env h in
  (match r with
   | Fulfilled a => Returned a
   | Rejects e => Propagated e
   end, h ++ [record r]).

(** A synchronous call of a library method that may throw: it is no
    interaction and leaves the history as it is. *)
Definition library {A} (call : Env -> settled A) : M A := fun env h =>
  (match call env with
   | Fulfilled a => Returned a
   | Rejects e => Propagated e
   end, h).

(** The builtin [JSON.stringify], applied to a confirmation status. *)
Definition stringify (status : option SignatureResult) : M jsstring :=
  fun env h => (Returned (JSON_stringify env status), h).

(** Run from an empty history. *)
Definition run {A} (m : M A) (env : Env) : outcome A * list event := m env [].

End Async.

Declare Scope async_scope.
Delimit Scope async_scope with async.
Notation "x <- m ;; k" := (Async.bind m (fun x => k))
  (at level 100, m at next level, right associativity) : async_scope.
Notation "m ;;; k" := (Async.bind m (fun _ => k))
  (at level 100, right associativity) : async_scope.

(* ===================================================================== *)
(** ** [getErrorForTransaction] and [sendTransaction] *)
(* ===================================================================== *)

Module Tx.
Import Web3 Async.
Local Open Scope async_scope.

Definition confirmTransaction (c : Connection) (txid : jsstring)
    (cm : Commitment) : M (RpcResponseAndContext (option SignatureResult)) :=
  await (fun env h => rpc_confirmTransaction env h c txid cm)
        (EConfirmTransaction c txid cm).

Definition getParsedConfirmedTransaction (c : Connection) (txid : jsstring)
  : M (option ParsedConfirmedTransaction) :=
  await (fun env h => rpc_getParsedConfirmedTransaction env h c txid)
        (EGetParsedConfirmedTransaction c txid).

Definition getRecentBlockhash (c : Connection) (cm : Commitment)
  : M BlockhashResponse :=
  await (fun env h => rpc_getRecentBlockhash env h c cm)
        (EGetRecentBlockhash c cm).

Definition signTransaction (w : WalletAdapter) (t : Transaction)
  : M Transaction :=
  await (fun env h => wallet_signTransaction env h w t) (ESignTransaction w t).

Definition serialize (t : Transaction) : M (list N) :=
  await (fun env h => tx_serialize env h t) (ESerialize t).

Definition sendRawTransaction (c : Connection) (raw : list N)
    (o : SendOptions) : M jsstring :=
  await (fun env h => rpc_sendRawTransaction env h c raw o)
        (ESendRawTransaction c raw o).

Definition notify (n : Notification) : M unit :=
  await (fun env h => ui_notify env h n) (ENotify n).

(** [tx?.meta && tx.meta.logMessages]: the log array when the record,
    its meta and its logs are all present (an array is truthy even when
    empty). *)
Definition logsOf (tx : option ParsedConfirmedTransaction)
  : option (list jsstring) :=
  match tx with
  | None => None
  | Some t =>
      match meta t with
      | None => None
      | Some m => logMessages m
      end
  end.

(** Lines 121-146. *)
Definition getErrorForTransaction (connection : Connection)
    (txid : jsstring) : M (list jsstring) :=
  confirmTransaction connection txid Max ;;;
  tx <- getParsedConfirmedTransaction connection txid ;;
  match logsOf tx with
  | Some logs =>
      match Scan.scanLogs logs [] with
      | Some errors => ret errors
      | None => diverge
      end
  | None => ret []
  end.

(** Lines 172-175. *)
Definition options : SendOptions := mkSendOptions true SingleGossip.

(** The template literal of line 197. *)
Definition failureMessage (txid json : jsstring) : jsstring :=
  str "Raw transaction " ++ txid ++ str " failed (" ++ json ++ str ")".

(** Lines 159-169: the transaction handed to the wallet, or the error of
    the library method that threw. *)
Definition assemble (env : Env) (feePayer : PublicKey)
    (instructions : list TransactionInstruction) (signers : list Account)
    (recent : BlockhashResponse) : settled Transaction :=
  let transaction := fold_left add instructions Transaction_new in
  let transaction := set_recentBlockhash (blockhash recent) transaction in
  match lib_setSigners env (feePayer :: map publicKey signers) transaction with
  | Fulfilled transaction =>
      if 0 <? length signers
      then lib_partialSign env signers transaction
      else Fulfilled transaction
  | Rejects e => Rejects e
  end.

(** Lines 148-202.  [wallet] may be null at run time ([wallet?.]). *)
Definition sendTransaction (connection : Connection)
    (wallet : option WalletAdapter)
    (instructions : list TransactionInstruction) (signers : list Account)
    (awaitConfirmation : bool) : M jsstring :=
  match wallet with
  | None => throw (mkError (str "Wallet is not connected"))
  | Some w =>
      match wallet_publicKey w with
      | None => throw (mkError (str "Wallet is not connected"))
      | Some feePayer =>
          recent <- getRecentBlockhash connection Max ;;
          transaction <- library (fun env => assemble env feePayer instructions
                                                      signers recent) ;;
          transaction <- signTransaction w transaction ;;
          rawTransaction <- serialize transaction ;;
          txid <- sendRawTransaction connection rawTransaction options ;;
          if awaitConfirmation then
            response <- confirmTransaction connection txid (commitment options) ;;
            let status := value response in
            if status_err status then
              errors <- getErrorForTransaction connection txid ;;
              notify (mkNotification (str "Transaction failed...") errors txid
                                     (str "error")) ;;;
              json <- stringify status ;;
              throw (mkError (failureMessage txid json))
            else ret txid
          else ret txid
      end
  end.

(** *** Vocabulary of the properties *)

(** [needle] occurs in [hay]. *)
Definition contains (needle hay : jsstring) : Prop :=
  exists before after, hay = before ++ needle ++ after.

Fixpoint containsb (needle hay : jsstring) : bool :=
  match stripPrefix needle hay with
  | Some _ => true
  | None =>
      match hay with
      | [] => false
      | _ :: hay' => containsb needle hay'
      end
  end.

(** [wallet?.publicKey] *)
Definition optionalPublicKey (wallet : option WalletAdapter)
  : option PublicKey :=
  match wallet with
  | Some w => wallet_publicKey w
  | None => None
  end.

(** The record is null, or has no meta, or its meta has no log
    messages. *)
Definition noLogs (tx : option ParsedConfirmedTransaction) : Prop :=
  tx = None \/
  (exists t, tx = Some t /\ meta t = None) \/
  (exists t m, tx = Some t /\ meta t = Some m /\ logMessages m = None).

(** The error of line 156. *)
Definition notConnected : Error := mkError (str "Wallet is not connected").

(** The error of line 197. *)
Definition failed (env : Env) (txid : jsstring)
    (status : option SignatureResult) : Error :=
  mkError (failureMessage txid (JSON_stringify env status)).

(** The step of the workflow an interaction belongs to: fetch the
    blockhash (line 161), have the wallet sign (170), serialize (171),
    submit (177), await confirmation (180), then the scrape of
    [getErrorForTransaction] (123, 125) and the notification (184). *)
Definition stage (e : event) : nat :=
  match e with
  | EGetRecentBlockhash _ _ _ => 0
  | ESignTransaction _ _ _ => 1
  | ESerialize _ _ => 2
  | ESendRawTransaction _ _ _ _ => 3
  | EConfirmTransaction _ _ SingleGossip _ => 4
  | EConfirmTransaction _ _ _ _ => 5
  | EGetParsedConfirmedTransaction _ _ _ => 6
  | ENotify _ _ => 7
  end.

Definition rejectionOf {A} (r : settled A) : option Error :=
  match r with
  | Fulfilled _ => None
  | Rejects e => Some e
  end.

(** The error an interaction was rejected with, if it was. *)
Definition rejection (e : event) : option Error :=
  match e with
  | EGetRecentBlockhash _ _ r => rejectionOf r
  | ESignTransaction _ _ r => rejectionOf r
  | ESerialize _ r => rejectionOf r
  | ESendRawTransaction _ _ _ r => rejectionOf r
  | EConfirmTransaction _ _ _ r => rejectionOf r
  | EGetParsedConfirmedTransaction _ _ r => rejectionOf r
  | ENotify _ r => rejectionOf r
  end.

(** What [getErrorForTransaction] extracts from a queried record. *)
Definition errorsOfRecord (tx : option ParsedConfirmedTransaction)
  : list jsstring :=
  match logsOf tx with
  | Some logs => Scan.errorsOfLogs logs
  | None => []
  end.

End Tx.

(** Collaborators to run the helpers against: every request is fulfilled,
    the confirmation reports [status], the parsed record is [tx]. *)
Module Samples.
Import Web3 Async.

Definition stringifySample (status : option SignatureResult) : jsstring :=
  match status with
  | Some (mkSignatureResult (Some (ErrObject payload))) =>
      str "{err:" ++ payload ++ str "}"
  | Some (mkSignatureResult (Some (ErrString s))) =>
      str "{err:'" ++ s ++ str "'}"
  | Some (mkSignatureResult None) => str "{err:null}"
  | None => str "null"
  end.

(** The library for the sample runs.  It does what web3.js does on them:
    [setSigners] refuses an empty list and keeps one empty slot per
    distinct key, in the order of first mention ... *)
Fixpoint distinct (keys seen : list PublicKey) : list PublicKey :=
  match keys with
  | [] => []
  | k :: keys' =>
      if existsb (PublicKey_equals k) seen then distinct keys' seen
      else k :: distinct keys' (k :: seen)
  end.

Definition setSigners (signers : list PublicKey) (t : Transaction)
  : settled Transaction :=
  match signers with
  | [] => Rejects (mkError (str "No signers"))
  | _ => Fulfilled (mkTransaction (map (mkPair None) (distinct signers []))
                                  (instructions t) (recentBlockhash t))
  end.

(** ... and [partialSign] refuses an empty list, refuses a slot (other
    than the fee payer's, the first) whose key no instruction names, and
    otherwise fills the slot of each signer. *)
Fixpoint signSlot (a : Account) (slots : list SignaturePubkeyPair)
  : list SignaturePubkeyPair :=
  match slots with
  | [] => []
  | p :: ps =>
      if PublicKey_equals (sp_publicKey p) (publicKey a)
      then mkPair (Some (mkSignature (secretKey a))) (sp_publicKey p) :: ps
      else p :: signSlot a ps
  end.

Definition named (t : Transaction) (k : PublicKey) : bool :=
  existsb (fun i => existsb (fun m => PublicKey_equals (pubkey m) k) (ix_keys i))
          (instructions t).

Definition partialSign (signers : list Account) (t : Transaction)
  : settled Transaction :=
  match signers with
  | [] => Rejects (mkError (str "No signers"))
  | _ =>
      if forallb (fun p => named t (sp_publicKey p)) (tl (signatures t))
      then Fulfilled (mkTransaction
                        (fold_left (fun slots a => signSlot a slots) signers
                                   (signatures t))
                        (instructions t) (recentBlockhash t))
      else Rejects (mkError (str "unknown signer"))
  end.

Definition connection : Connection := mkConnection 0.
Definition feePayer : PublicKey := mkPublicKey 11.
Definition wallet : WalletAdapter := mkWallet (Some feePayer).
Definition disconnected : WalletAdapter := mkWallet None.
Definition alice : Account := mkAccount (mkPublicKey 22) [7; 7]%N.

(** An instruction that names the fee payer and alice as signers. *)
Definition transfer : TransactionInstruction :=
  mkInstruction [mkAccountMeta feePayer true true;
                 mkAccountMeta (publicKey alice) true true]
                (mkPublicKey 1) [2; 0; 0; 0]%N.

(** An instruction that only the fee payer has to sign. *)
Definition deposit : TransactionInstruction :=
  mkInstruction [mkAccountMeta feePayer true true;
                 mkAccountMeta (mkPublicKey 44) false true]
                (mkPublicKey 1) [2; 1; 0; 0]%N.

(** The wallet of the sample runs signs the fee payer's slot. *)
Definition walletSigns (t : Transaction) : Transaction :=
  mkTransaction (signSlot (mkAccount feePayer [9; 9]%N) (signatures t))
                (instructions t) (recentBlockhash t).

Definition fulfilling (status : option SignatureResult)
    (tx : option ParsedConfirmedTransaction) : Env :=
  mkEnv (fun _ _ _ => Fulfilled (mkBlockhashResponse (str "9xQeWvG8") 5000))
        (fun _ _ t => Fulfilled (walletSigns t))
        (fun _ _ => Fulfilled [1; 0; 1; 3]%N)
        (fun _ _ _ _ => Fulfilled (str "5VERv8NM"))
        (fun _ _ _ _ => Fulfilled (mkRpcResponse 42%N status))
        (fun _ _ _ => Fulfilled tx)
        (fun _ _ => Fulfilled tt)
        stringifySample setSigners partialSign.

(** The same, except that the log re-query is rejected. *)
Definition requeryRejected (status : option SignatureResult) : Env :=
  mkEnv (fun _ _ _ => Fulfilled (mkBlockhashResponse (str "9xQeWvG8") 5000))
        (fun _ _ t => Fulfilled (walletSigns t))
        (fun _ _ => Fulfilled [1; 0; 1; 3]%N)
        (fun _ _ _ _ => Fulfilled (str "5VERv8NM"))
        (fun _ _ _ _ => Fulfilled (mkRpcResponse 42%N status))
        (fun _ _ _ => Rejects (mkError (str "503 Service Unavailable")))
        (fun _ _ => Fulfilled tt)
        stringifySample setSigners partialSign.

Definition customError : option SignatureResult :=
  Some (mkSignatureResult (Some (ErrObject (str "{InstructionError:[0,{Custom:1}]}")))).

Definition succeeded : option SignatureResult :=
  Some (mkSignatureResult None).

Definition withLogs (logs : list jsstring) : option ParsedConfirmedTransaction :=
  Some (mkParsed 42%N (Some (mkMeta 5000%N None (Some logs)))).

Definition txid : jsstring := str "5VERv8NM".

Definition stakeLogs : list jsstring :=
  [ str "Program log: Instruction: Stake";
    str "Program log: Error: insufficient funds";
    str "Program failed: custom program error: 0x1" ].

Definition twoOnOneLine : list jsstring := [ str "Error: A Error: B" ].

(** A failed stake, confirmation awaited. *)
Definition failedStake : outcome jsstring * list event :=
  run (Tx.sendTransaction connection (Some wallet) [transfer] [alice] true)
      (fulfilling customError (withLogs stakeLogs)).

(** The same when the transport refuses the log re-query. *)
Definition failedStakeNoLogs : outcome jsstring * list event :=
  run (Tx.sendTransaction connection (Some wallet) [transfer] [alice] true)
      (requeryRejected customError).

(** A stake that went through, confirmation awaited. *)
Definition confirmedStake : outcome jsstring * list event :=
  run (Tx.sendTransaction connection (Some wallet) [transfer] [alice] true)
      (fulfilling succeeded (withLogs [])).

(** A stake signed by the wallet alone, confirmation not awaited. *)
Definition soloStake : outcome jsstring * list event :=
  run (Tx.sendTransaction connection (Some wallet) [deposit] [] false)
      (fulfilling succeeded (withLogs [])).



(** The notification of the failed stake. *)
Definition failedStakeNote : Notification :=
  mkNotification (str "Transaction failed...") [str "insufficient funds"] txid
                 (str "error").

(** The log scrape on its own. *)
Definition scrape (tx : option ParsedConfirmedTransaction)
  : outcome (list jsstring) * list event :=
  run (Tx.getErrorForTransaction connection txid) (fulfilling customError tx).

End Samples.

(* ===================================================================== *)
(** ** The connection-configuration provider *)
(* ===================================================================== *)

Module Provider.
Import Web3.

Inductive Cluster := MainnetBeta | Testnet | Devnet.

Definition clusterName (c : Cluster) : jsstring :=
  match c with
  | MainnetBeta => str "mainnet-beta"
  | Testnet => str "testnet"
  | Devnet => str "devnet"
  end.

Record Endpoint := mkEndpoint
  { name : Cluster; endpointUrl : jsstring; chainID : N }.

(** What indexing the [ENDPOINTS] object with an arbitrary string can
    yield at run time: one of its own endpoint descriptors, a function
    inherited from [Object.prototype], or (under the key [__proto__])
    [Object.prototype] itself. *)
Inductive value :=
| VEndpoint (e : Endpoint)
| VFunction (fname : jsstring)
| VObjectPrototype.

(** The properties every plain object inherits from [Object.prototype]
    (ECMAScript 2020, 19.1.3 and B.2.2). *)
Definition Object_prototype : gmap jsstring value :=
  list_to_map
    [ (str "constructor", VFunction (str "Object"));
      (str "hasOwnProperty", VFunction (str "hasOwnProperty"));
      (str "isPrototypeOf", VFunction (str "isPrototypeOf"));
      (str "propertyIsEnumerable", VFunction (str "propertyIsEnumerable"));
      (str "toLocaleString", VFunction (str "toLocaleString"));
      (str "toString", VFunction (str "toString"));
      (str "valueOf", VFunction (str "valueOf"));
      (str "__defineGetter__", VFunction (str "__defineGetter__"));
      (str "__defineSetter__", VFunction (str "__defineSetter__"));
      (str "__lookupGetter__", VFunction (str "__lookupGetter__"));
      (str "__lookupSetter__", VFunction (str "__lookupSetter__"));
      (str "__proto__", VObjectPrototype) ].

(** [v.name]: the cluster of a descriptor, the name of a function,
    undefined on [Object.prototype]. *)
Definition name_of (v : value) : option jsstring :=
  match v with
  | VEndpoint e => Some (clusterName (name e))
  | VFunction f => Some f
  | VObjectPrototype => None
  end.

Inductive Callback := NoOp.

Record AccountSubscription := mkAccountSub
  { sub_publicKey : PublicKey; sub_callback : Callback }.

(** A Connection object with its two subscription tables, keyed by the
    ids that [onAccountChange] and [onSlotChange] hand out. *)
Record ConnectionObject := mkConnectionObject
  { rpcEndpoint : jsstring;
    conn_commitment : Commitment;
    accountChangeSubscriptions : gmap nat AccountSubscription;
    accountChangeSubscriptionCounter : nat;
    slotChangeSubscriptions : gmap nat Callback;
    slotChangeSubscriptionCounter : nat }.

(** What the web3 library does with an endpoint string, which is outside
    the repository: whether the [Connection] constructor takes it or
    throws, and whether the websocket client of a connection to it lets a
    listener be registered or throws. *)
Record Web3Library := mkLibrary
  { constructs : jsstring -> bool;
    subscribes : jsstring -> bool }.

(** The world outside the component: the Connection objects allocated so
    far (by address), the browser's local storage, how many random
    accounts were generated, and the web3 library at hand. *)
Record World := mkWorld
  { heap : gmap nat ConnectionObject;
    nextAddress : nat;
    localStorage : gmap jsstring jsstring;
    accountsCreated : nat;
    web3 : Web3Library }.

(** [new Connection(endpoint, commitment)]; [None] when the constructor
    throws. *)
Definition newConnection (endpoint : jsstring) (cm : Commitment) (w : World)
  : option (nat * World) :=
  if constructs (web3 w) endpoint
  then Some (nextAddress w,
             mkWorld (<[nextAddress w := mkConnectionObject endpoint cm ∅ 0 ∅ 0]>
                        (heap w))
                     (S (nextAddress w)) (localStorage w) (accountsCreated w)
                     (web3 w))
  else None.

(** [new Account().publicKey]: a freshly generated key. *)
Definition newAccountKey (w : World) : PublicKey * World :=
  (mkPublicKey (N.of_nat (accountsCreated w)),
   mkWorld (heap w) (nextAddress w) (localStorage w) (S (accountsCreated w))
           (web3 w)).

Definition setObject (c : nat) (o : ConnectionObject) (w : World) : World :=
  mkWorld (<[c := o]> (heap w)) (nextAddress w) (localStorage w)
          (accountsCreated w) (web3 w).

(** Field updates of a Connection object. *)
Definition withAccountSubscriptions (m : gmap nat AccountSubscription)
    (counter : nat) (o : ConnectionObject) : ConnectionObject :=
  mkConnectionObject (rpcEndpoint o) (conn_commitment o) m counter
    (slotChangeSubscriptions o) (slotChangeSubscriptionCounter o).

Definition withSlotSubscriptions (m : gmap nat Callback) (counter : nat)
    (o : ConnectionObject) : ConnectionObject :=
  mkConnectionObject (rpcEndpoint o) (conn_commitment o)
    (accountChangeSubscriptions o) (accountChangeSubscriptionCounter o)
    m counter.

(** [connection.onAccountChange(key, callback)] returns the new id;
    [None] when the websocket client throws. *)
Definition onAccountChange (c : nat) (key : PublicKey) (cb : Callback)
    (w : World) : option (nat * World) :=
  o ← heap w !! c;
  if subscribes (web3 w) (rpcEndpoint o) then
    let id := S (accountChangeSubscriptionCounter o) in
    Some (id, setObject c
      (withAccountSubscriptions
         (<[id := mkAccountSub key cb]> (accountChangeSubscriptions o)) id o) w)
  else None.

(** [connection.removeAccountChangeListener(id)] throws on an unknown
    id. *)
Definition removeAccountChangeListener (c id : nat) (w : World)
  : option World :=
  o ← heap w !! c;
  _ ← accountChangeSubscriptions o !! id;
  Some (setObject c
    (withAccountSubscriptions (delete id (accountChangeSubscriptions o))
       (accountChangeSubscriptionCounter o) o) w).

(** [connection.onSlotChange(callback)]; [None] when the websocket
    client throws. *)
Definition onSlotChange (c : nat) (cb : Callback) (w : World)
  : option (nat * World) :=
  o ← heap w !! c;
  if subscribes (web3 w) (rpcEndpoint o) then
    let id := S (slotChangeSubscriptionCounter o) in
    Some (id, setObject c
      (withSlotSubscriptions (<[id := cb]> (slotChangeSubscriptions o)) id o) w)
  else None.

(** [connection.removeSlotChangeListener(id)] *)
Definition removeSlotChangeListener (c id : nat) (w : World) : option World :=
  o ← heap w !! c;
  _ ← slotChangeSubscriptions o !! id;
  Some (setObject c
    (withSlotSubscriptions (delete id (slotChangeSubscriptions o))
       (slotChangeSubscriptionCounter o) o) w).

(** The two kinds of keep-alive effect (lines 72-98). *)
Inductive EffectKind := AccountChange | SlotChange.

(** The body of an effect: subscribe a no-op callback to [c]. *)
Definition subscribe (k : EffectKind) (c : nat) (w : World)
  : option (nat * World) :=
  match k with
  | AccountChange =>
      let '(key, w1) := newAccountKey w in onAccountChange c key NoOp w1
  | SlotChange => onSlotChange c NoOp w
  end.

(** The function an effect returns: remove the listener [id] from [c]. *)
Definition unsubscribe (k : EffectKind) (c id : nat) (w : World)
  : option World :=
  match k with
  | AccountChange => removeAccountChangeListener c id w
  | SlotChange => removeSlotChangeListener c id w
  end.

(** A [useEffect] cell: the dependency it last ran with, and the
    listener id its pending cleanup closes over. *)
Record EffectCell := mkEffect { dep : nat; listener : nat }.

(** The hook state of one mounted provider, in call order. *)
Record Fiber := mkFiber
  { endpoint : jsstring;
    slippage : jsstring;
    connectionDep : jsstring;
    connection : nat;
    sendConnectionDep : jsstring;
    sendConnection : nat;
    accountEffect : EffectCell;
    slotEffect : EffectCell;
    sendAccountEffect : EffectCell;
    sendSlotEffect : EffectCell }.

(** [useMemo (() => new Connection(endpoint, 'recent'), [endpoint])] on a
    re-render: recompute when the dependency changed. *)
Definition useMemo (endpoint cachedDep : jsstring) (cached : nat) (w : World)
  : option (nat * World) :=
  if decide (cachedDep = endpoint) then Some (cached, w)
  else newConnection endpoint Recent w.

(** Commit of one [useEffect] on a re-render, in React's two passes: the
    pending cleanup runs when the dependency changed ... *)
Definition commitCleanup (k : EffectKind) (cell : EffectCell) (c : nat)
    (w : World) : option World :=
  if decide (dep cell = c) then Some w
  else unsubscribe k (dep cell) (listener cell) w.

(** ... and then the body runs again. *)
Definition commitEffect (k : EffectKind) (cell : EffectCell) (c : nat)
    (w : World) : option (EffectCell * World) :=
  if decide (dep cell = c) then Some (cell, w)
  else '(id, w1) ← subscribe k c w; Some (mkEffect c id, w1).

(** First commit of an effect. *)
Definition mountEffect (k : EffectKind) (c : nat) (w : World)
  : option (EffectCell * World) :=
  '(id, w1) ← subscribe k c w; Some (mkEffect c id, w1).

Definition KEY_ENDPOINT : jsstring := str "connectionEndpts".
Definition KEY_SLIPPAGE : jsstring := str "slippage".

(** Modelled from the spec: the hook [useLocalStorage] of
    [@/hooks/useLocalStorage] is not part of the sources at hand.  The
    spec says the chosen endpoint URL and the slippage are persisted to
    local storage across sessions: the state starts from the stored
    string when there is one, from the default otherwise ... *)
Definition useLocalStorage_initial (key dflt : jsstring) (w : World)
  : jsstring :=
  default dflt (localStorage w !! key).

(** ... and the setter stores the new string. *)
Definition useLocalStorage_store (key val : jsstring) (w : World) : World :=
  mkWorld (heap w) (nextAddress w) (<[key := val]> (localStorage w))
          (accountsCreated w) (web3 w).

(** The context value the provider exposes (lines 102-110); the numeric
    [slippage] is [parseFloat] of the text kept here. *)
Record ConnectionConfig := mkConfig
  { cfg_connection : nat;
    cfg_sendConnection : nat;
    cfg_endpointUrl : jsstring;
    cfg_slippageText : jsstring;
    cfg_network : option jsstring }.

Section Platform.

(** [clusterApiUrl] of the web3 library and the build-time variable
    [process.env.REACT_APP_SOLANA_CLUSTER]. *)
Variable clusterApiUrl : Cluster -> jsstring.
Variable REACT_APP_SOLANA_CLUSTER : option Cluster.

(** Lines 25-41, by typed key ... *)
Definition endpointOf (c : Cluster) : Endpoint :=
  match c with
  | MainnetBeta =>
      mkEndpoint MainnetBeta (str "https://solana-api.projectserum.com/") 101
  | Testnet => mkEndpoint Testnet (clusterApiUrl Testnet) 102
  | Devnet => mkEndpoint Devnet (clusterApiUrl Devnet) 103
  end.

(** ... and as the object it is at run time. *)
Definition ENDPOINTS : gmap jsstring Endpoint :=
  list_to_map
    [ (str "mainnet-beta", endpointOf MainnetBeta);
      (str "testnet", endpointOf Testnet);
      (str "devnet", endpointOf Devnet) ].

(** [ENDPOINTS[key]]: own properties first, then the prototype. *)
Definition ENDPOINTS_get (key : jsstring) : option value :=
  match ENDPOINTS !! key with
  | Some e => Some (VEndpoint e)
  | None => Object_prototype !! key
  end.

(** Line 43. *)
Definition DEFAULT_CLUSTER : Cluster :=
  default Devnet REACT_APP_SOLANA_CLUSTER.

(** Line 45. *)
Definition DEFAULT_ENDPOINT : Endpoint := endpointOf DEFAULT_CLUSTER.

(** Line 46, [DEFAULT_SLIPPAGE.toString()]. *)
Definition DEFAULT_SLIPPAGE_TEXT : jsstring := str "1".

(** Lines 66-67: [(ENDPOINTS[endpoint] ?? DEFAULT_ENDPOINT).name]. *)
Definition network (endpoint : jsstring) : option jsstring :=
  name_of (default (VEndpoint DEFAULT_ENDPOINT) (ENDPOINTS_get endpoint)).

Definition contextValue (f : Fiber) : ConnectionConfig :=
  mkConfig (connection f) (sendConnection f) (endpoint f) (slippage f)
           (network (endpoint f)).

(** The first render and commit of the provider (lines 59-98). *)
Definition mount (w : World) : option (World * Fiber) :=
  let endpoint :=
    useLocalStorage_initial KEY_ENDPOINT (endpointUrl DEFAULT_ENDPOINT) w in
  let slippage :=
    useLocalStorage_initial KEY_SLIPPAGE DEFAULT_SLIPPAGE_TEXT w in
  '(c, w1) ← newConnection endpoint Recent w;
  '(sc, w2) ← newConnection endpoint Recent w1;
  '(e1, w3) ← mountEffect AccountChange c w2;
  '(e2, w4) ← mountEffect SlotChange c w3;
  '(e3, w5) ← mountEffect AccountChange sc w4;
  '(e4, w6) ← mountEffect SlotChange sc w5;
  Some (w6, mkFiber endpoint slippage endpoint c endpoint sc e1 e2 e3 e4).

End Platform.

(** A later render and commit. *)
Definition rerender (w : World) (f : Fiber) : option (World * Fiber) :=
  '(c, w1) ← useMemo (endpoint f) (connectionDep f) (connection f) w;
  '(sc, w2) ← useMemo (endpoint f) (sendConnectionDep f) (sendConnection f) w1;
  w3 ← commitCleanup AccountChange (accountEffect f) c w2;
  w4 ← commitCleanup SlotChange (slotEffect f) c w3;
  w5 ← commitCleanup AccountChange (sendAccountEffect f) sc w4;
  w6 ← commitCleanup SlotChange (sendSlotEffect f) sc w5;
  '(e1, w7) ← commitEffect AccountChange (accountEffect f) c w6;
  '(e2, w8) ← commitEffect SlotChange (slotEffect f) c w7;
  '(e3, w9) ← commitEffect AccountChange (sendAccountEffect f) sc w8;
  '(e4, w10) ← commitEffect SlotChange (sendSlotEffect f) sc w9;
  Some (w10, mkFiber (endpoint f) (slippage f) (endpoint f) c (endpoint f) sc
                     e1 e2 e3 e4).

(** [setEndpoint(val)]: store, set the state, render again. *)
Definition setEndpoint (val : jsstring) (w : World) (f : Fiber)
  : option (World * Fiber) :=
  rerender (useLocalStorage_store KEY_ENDPOINT val w)
    (mkFiber val (slippage f) (connectionDep f) (connection f)
       (sendConnectionDep f) (sendConnection f) (accountEffect f)
       (slotEffect f) (sendAccountEffect f) (sendSlotEffect f)).

(** The inner setter behind [setSlippage]: it receives [val.toString()]. *)
Definition setSlippageText (text : jsstring) (w : World) (f : Fiber)
  : option (World * Fiber) :=
  rerender (useLocalStorage_store KEY_SLIPPAGE text w)
    (mkFiber (endpoint f) text (connectionDep f) (connection f)
       (sendConnectionDep f) (sendConnection f) (accountEffect f)
       (slotEffect f) (sendAccountEffect f) (sendSlotEffect f)).

(** Unmount: every pending cleanup runs. *)
Definition unmount (w : World) (f : Fiber) : option World :=
  w1 ← unsubscribe AccountChange (dep (accountEffect f))
         (listener (accountEffect f)) w;
  w2 ← unsubscribe SlotChange (dep (slotEffect f))
         (listener (slotEffect f)) w1;
  w3 ← unsubscribe AccountChange (dep (sendAccountEffect f))
         (listener (sendAccountEffect f)) w2;
  unsubscribe SlotChange (dep (sendSlotEffect f))
    (listener (sendSlotEffect f)) w3.

(** No address at or beyond [nextAddress] is in use yet. *)
Definition wellFormed (w : World) : Prop :=
  ∀ a, nextAddress w ≤ a → heap w !! a = None.

(** The states a mounted provider can be in. *)
Inductive reachable (clusterApiUrl : Cluster -> jsstring)
    (envCluster : option Cluster) : World -> Fiber -> Prop :=
| reach_mount w w' f :
    wellFormed w ->
    mount clusterApiUrl envCluster w = Some (w', f) ->
    reachable clusterApiUrl envCluster w' f
| reach_setEndpoint val w f w' f' :
    reachable clusterApiUrl envCluster w f ->
    setEndpoint val w f = Some (w', f') ->
    reachable clusterApiUrl envCluster w' f'
| reach_setSlippage text w f w' f' :
    reachable clusterApiUrl envCluster w f ->
    setSlippageText text w f = Some (w', f') ->
    reachable clusterApiUrl envCluster w' f'
| reach_rerender w f w' f' :
    reachable clusterApiUrl envCluster w f ->
    rerender w f = Some (w', f') ->
    reachable clusterApiUrl envCluster w' f'.

(** The two subscription tables of the object at address [c]. *)
Definition subscriptionsAt (w : World) (c : nat)
  : option (gmap nat AccountSubscription * gmap nat Callback) :=
  (fun o => (accountChangeSubscriptions o, slotChangeSubscriptions o))
    <$> heap w !! c.

(** The endpoint the object at address [c] talks to. *)
Definition endpointAt (w : World) (c : nat) : option jsstring :=
  rpcEndpoint <$> heap w !! c.

(** The object at [c] holds exactly the two listeners that the effect
    cells [acc] and [slot] will remove. *)
Definition keptAlive (w : World) (c : nat) (acc slot : EffectCell) : Prop :=
  dep acc = c /\ dep slot = c /\
  exists key,
    subscriptionsAt w c =
      Some ({[ listener acc := mkAccountSub key NoOp ]},
            {[ listener slot := NoOp ]}).

(** What holds of a mounted provider between renders. *)
Definition consistent (w : World) (f : Fiber) : Prop :=
  wellFormed w /\
  connection f <> sendConnection f /\
  connectionDep f = endpoint f /\
  sendConnectionDep f = endpoint f /\
  keptAlive w (connection f) (accountEffect f) (slotEffect f) /\
  keptAlive w (sendConnection f) (sendAccountEffect f) (sendSlotEffect f).

(** What a render without a change of endpoint leaves as it was. *)
Definition untouched (w : World) (f : Fiber) (w' : World) (f' : Fiber) : Prop :=
  heap w' = heap w /\ nextAddress w' = nextAddress w /\
  connection f' = connection f /\ sendConnection f' = sendConnection f /\
  endpoint f' = endpoint f.

(** Both connections are objects created for the endpoint of the state. *)
Definition pointsAtEndpoint (w : World) (f : Fiber) : Prop :=
  endpointAt w (connection f) = Some (endpoint f) /\
  endpointAt w (sendConnection f) = Some (endpoint f).

(** The library takes [endpoint], constructor and websocket client. *)
Definition accepts (w : World) (endpoint : jsstring) : bool :=
  constructs (web3 w) endpoint && subscribes (web3 w) endpoint.

(** A library whose constructor takes every string and whose websocket
    client refuses the empty one, for which there is no URL to open. *)
Definition lenient : Web3Library :=
  mkLibrary (fun _ => true)
            (fun s => match s with [] => false | _ :: _ => true end).

(** A library whose constructor only takes the strings that start with
    [http]. *)
Definition httpOnly : Web3Library :=
  let startsWithHttp s :=
    match stripPrefix (str "http") s with
    | Some _ => true
    | None => false
    end in
  mkLibrary startsWithHttp startsWithHttp.

(** An empty browser: nothing allocated, nothing stored. *)
Definition emptyWorld : World := mkWorld ∅ 0 ∅ 0 lenient.

End Provider.

(** A browser session to run the provider in. *)
Module ProviderSamples.
Import Provider.

(** [clusterApiUrl] as the web3 library documents it. *)
Definition clusterApiUrl (c : Cluster) : jsstring :=
  match c with
  | MainnetBeta => str "https://api.mainnet-beta.solana.com"
  | Testnet => str "https://api.testnet.solana.com"
  | Devnet => str "https://api.devnet.solana.com"
  end.

Definition noFiber : Fiber :=
  mkFiber [] [] [] 0 [] 0 (mkEffect 0 0) (mkEffect 0 0) (mkEffect 0 0)
          (mkEffect 0 0).

(** The provider mounted in an empty browser, no cluster configured. *)
Definition mounted : World * Fiber :=
  default (emptyWorld, noFiber) (mount clusterApiUrl None emptyWorld).

(** ... and after the user picked another endpoint. *)
Definition switchedTo (val : jsstring) : World * Fiber :=
  default (emptyWorld, noFiber) (setEndpoint val (fst mounted) (snd mounted)).

(** The same browser with the library whose constructor checks the
    string. *)
Definition checkedWorld : World := mkWorld ∅ 0 ∅ 0 httpOnly.

End ProviderSamples.

(* ===================================================================== *)
(** * Properties *)
(* ===================================================================== *)

(** ** Strings *)

Lemma stripPrefix_Some (lit s rest : jsstring) :
  stripPrefix lit s = Some rest <-> s = lit ++ rest.
Proof.
  revert s; induction lit as [|a lit IH]; intros s; simpl.
  - split; congruence.
  - destruct s as [|c s]; [split; discriminate|].
    destruct (N.eqb_spec a c) as [->|Hne].
    + rewrite IH. split; congruence.
    + split; [discriminate | intros [= ? ?]; congruence].
Qed.

Lemma stripPrefix_app (lit rest : jsstring) :
  stripPrefix lit (lit ++ rest) = Some rest.
Proof. now apply stripPrefix_Some. Qed.

Lemma dotStar_split (s : jsstring) :
  s = dotStar s ++ drop (length (dotStar s)) s.
Proof.
  induction s as [|c s IH]; simpl; [reflexivity|].
  destruct (isLineTerminator c); simpl; congruence.
Qed.

Lemma dotStar_no_terminator (s : jsstring) :
  Forall (fun c => isLineTerminator c = false) (dotStar s).
Proof.
  induction s as [|c s IH]; simpl; [constructor|].
  destruct (isLineTerminator c) eqn:E; constructor; assumption.
Qed.

(** What follows the greedy run is the end of the string or a line
    terminator. *)
Lemma dotStar_rest (s : jsstring) :
  drop (length (dotStar s)) s = [] \/
  exists c r, drop (length (dotStar s)) s = c :: r /\ isLineTerminator c = true.
Proof.
  induction s as [|c s IH]; simpl; [now left|].
  destruct (isLineTerminator c) eqn:E; simpl; [right; eauto | exact IH].
Qed.

(** ** Lines and their first error *)

Module ScanFacts.
Import RegExp Scan.

Lemma ERROR_LITERAL_no_terminator :
  Forall (fun c => isLineTerminator c = false) ERROR_LITERAL.
Proof. repeat constructor. Qed.

Lemma splitLines_cons (s : jsstring) :
  splitLines s = hd [] (splitLines s) :: tl (splitLines s).
Proof.
  destruct s as [|c s]; simpl; [reflexivity|].
  destruct (isLineTerminator c); [reflexivity|].
  destruct (splitLines s); reflexivity.
Qed.

(** A run without line terminators stays on the first line. *)
Lemma splitLines_app (a b : jsstring) :
  Forall (fun c => isLineTerminator c = false) a ->
  splitLines (a ++ b) = (a ++ hd [] (splitLines b)) :: tl (splitLines b).
Proof.
  induction 1 as [|c a Hc _ IH]; simpl.
  - apply splitLines_cons.
  - rewrite Hc, IH. reflexivity.
Qed.

(** The first line is a prefix of the message. *)
Lemma splitLines_prefix (s : jsstring) :
  exists rest, s = hd [] (splitLines s) ++ rest.
Proof.
  induction s as [|c s [rest IH]]; simpl; [now exists []|].
  destruct (isLineTerminator c); simpl; [now exists (c :: s)|].
  rewrite (splitLines_cons s). simpl. exists rest. congruence.
Qed.

(** The per-line reading of a message obeys the two equations of the
    scan: a position that does not start [Error: ] is skipped ... *)
Lemma errorsOfLog_skip (c : N) (u : jsstring) :
  stripPrefix ERROR_LITERAL (c :: u) = None ->
  errorsOfLog (c :: u) = errorsOfLog u.
Proof.
  intros Hnone. unfold errorsOfLog.
  change (splitLines (c :: u)) with
    (if isLineTerminator c then [] :: splitLines u
     else match splitLines u with
          | l :: ls => (c :: l) :: ls
          | [] => [[c]]
          end).
  destruct (isLineTerminator c); [reflexivity|].
  destruct (splitLines_prefix u) as [rest Hu].
  rewrite (splitLines_cons u) in *. simpl hd in Hu.
  set (l := hd [] (splitLines u)) in *.
  change (omap afterFirstError ((c :: l) :: tl (splitLines u))) with
    (match afterFirstError (c :: l) with
     | Some y => y :: omap afterFirstError (tl (splitLines u))
     | None => omap afterFirstError (tl (splitLines u))
     end).
  change (omap afterFirstError (l :: tl (splitLines u))) with
    (match afterFirstError l with
     | Some y => y :: omap afterFirstError (tl (splitLines u))
     | None => omap afterFirstError (tl (splitLines u))
     end).
  assert (Hl : stripPrefix ERROR_LITERAL (c :: l) = None).
  { destruct (stripPrefix ERROR_LITERAL (c :: l)) as [r|] eqn:E; [|reflexivity].
    apply stripPrefix_Some in E.
    assert (Hbad : stripPrefix ERROR_LITERAL (c :: u) = Some (r ++ rest)).
    { apply stripPrefix_Some. rewrite Hu, app_comm_cons, E.
      now rewrite <- app_assoc. }
    congruence. }
  change (afterFirstError (c :: l)) with
    (match stripPrefix ERROR_LITERAL (c :: l) with
     | Some r => Some r
     | None => afterFirstError l
     end).
  now rewrite Hl.
Qed.

Lemma afterFirstError_literal (cap : jsstring) :
  afterFirstError (ERROR_LITERAL ++ cap) = Some cap.
Proof. reflexivity. Qed.

(** ... and one that does yields the rest of its line and resumes at the
    end of that line. *)
Lemma errorsOfLog_take (u rest : jsstring) :
  stripPrefix ERROR_LITERAL u = Some rest ->
  errorsOfLog u =
    dotStar rest :: errorsOfLog (drop (length (dotStar rest)) rest).
Proof.
  intros Hu. apply stripPrefix_Some in Hu. subst u.
  set (cap := dotStar rest). set (rest' := drop (length cap) rest).
  assert (Hrest : rest = cap ++ rest') by apply dotStar_split.
  assert (Hhd : hd [] (splitLines rest') = []).
  { destruct (dotStar_rest rest) as [E | (c & r & E & Hc)];
      fold cap in E; fold rest' in E; rewrite E; simpl; [reflexivity|].
    now rewrite Hc. }
  unfold errorsOfLog.
  rewrite Hrest at 1. rewrite app_assoc, splitLines_app, Hhd, app_nil_r.
  2:{ apply Forall_app. split;
        [apply ERROR_LITERAL_no_terminator | apply dotStar_no_terminator]. }
  assert (Hr : omap afterFirstError (splitLines rest') =
               omap afterFirstError (tl (splitLines rest'))).
  { rewrite (splitLines_cons rest') at 1. now rewrite Hhd. }
  rewrite Hr.
  change (omap afterFirstError ((ERROR_LITERAL ++ cap) :: tl (splitLines rest')))
    with (match afterFirstError (ERROR_LITERAL ++ cap) with
          | Some y => y :: omap afterFirstError (tl (splitLines rest'))
          | None => omap afterFirstError (tl (splitLines rest'))
          end).
  now rewrite afterFirstError_literal.
Qed.

(** *** The forward search *)

Lemma searchFrom_start (rx : matcher) (s : jsstring) (n i j e : nat)
    (caps : list jsstring) :
  searchFrom rx s i n = Some (j, e, caps) -> i <= j /\ rx s j = Some (e, caps).
Proof.
  revert i; induction n as [|n IH]; intros i; simpl; [discriminate|].
  destruct (rx s i) as [[e' caps']|] eqn:E.
  - intros [= <- <- <-]. split; [lia | exact E].
  - intros H. apply IH in H. split; [lia | tauto].
Qed.

(** Searching a message from [li] to its end either finds nothing, and
    then no line from there on mentions an error, or finds the first
    mention, whose capture is the head of the per-line reading. *)
Lemma search_errorRegex (log : jsstring) (n li : nat) :
  li + n = S (length log) ->
  match searchFrom errorRegex log li n with
  | None => errorsOfLog (drop li log) = []
  | Some (i, e, caps) =>
      exists cap,
        caps = [ERROR_LITERAL ++ cap; cap] /\ li <= i /\
        e = i + length ERROR_LITERAL + length cap /\ e <= length log /\
        errorsOfLog (drop li log) = cap :: errorsOfLog (drop e log)
  end.
Proof.
  revert li; induction n as [|n IH]; intros li Hn; simpl.
  - now rewrite drop_ge by lia.
  - unfold errorRegex at 1.
    destruct (stripPrefix ERROR_LITERAL (drop li log)) as [rest|] eqn:E.
    + exists (dotStar rest).
      pose proof (errorsOfLog_take _ _ E) as Htake.
      apply stripPrefix_Some in E.
      assert (Hlen : length (drop li log) =
                     length ERROR_LITERAL + length rest)
        by (rewrite E, length_app; reflexivity).
      rewrite length_drop in Hlen.
      pose proof (f_equal (@length N) (dotStar_split rest)) as Hcap.
      rewrite length_app in Hcap.
      repeat split; try lia.
      rewrite Htake. do 2 f_equal.
      rewrite <- Nat.add_assoc, <- drop_drop, E, <- drop_drop.
      now rewrite drop_app_length.
    + destruct n as [|n].
      * simpl. replace li with (length log) by lia.
        now rewrite drop_all.
      * specialize (IH (S li) ltac:(lia)).
        destruct (drop li log) as [|c u] eqn:Ed.
        { apply (f_equal (@length N)) in Ed. rewrite length_drop in Ed.
          simpl in Ed. lia. }
        assert (Hu : drop (S li) log = u).
        { replace (S li) with (li + 1) by lia.
          rewrite <- drop_drop, Ed. reflexivity. }
        rewrite Hu in IH. rewrite (errorsOfLog_skip _ _ E).
        destruct (searchFrom errorRegex log (S li) (S n)) as [[[i e] caps]|];
          [|exact IH].
        destruct IH as (cap & ? & ? & ? & ? & ?).
        exists cap. repeat split; try assumption; lia.
Qed.

(** *** The loop *)

(** The loop over one message, started anywhere inside it, appends the
    per-line reading of what is left. *)
Lemma scanLoop_errorRegex (fuel : nat) (log : jsstring) (li : nat)
    (errors : list jsstring) :
  li <= length log -> S (length log) - li < fuel ->
  scanLoop errorRegex fuel log li errors =
    Some (errors ++ errorsOfLog (drop li log)).
Proof.
  revert li errors; induction fuel as [|fuel IH]; intros li errors Hli Hfuel;
    [lia|].
  simpl. unfold exec.
  destruct (Nat.ltb_spec (length log) li) as [?|_]; [lia|].
  pose proof (search_errorRegex log (S (length log - li)) li ltac:(lia)) as Hs.
  destruct (searchFrom errorRegex log li (S (length log - li)))
    as [[[i e] caps]|].
  - destruct Hs as (cap & -> & Hi & He & Hle & Herr). simpl in He |- *.
    destruct (Nat.eqb_spec i e) as [?|_]; [lia|].
    rewrite IH by lia. rewrite Herr, <- app_assoc. reflexivity.
  - rewrite Hs, app_nil_r. reflexivity.
Qed.

Lemma scanLog_spec (log : jsstring) (errors : list jsstring) :
  scanLog log errors = Some (errors ++ errorsOfLog log).
Proof.
  unfold scanLog, scanBound.
  rewrite scanLoop_errorRegex by lia. reflexivity.
Qed.

Lemma scanLogs_spec (logs : list jsstring) (errors : list jsstring) :
  scanLogs logs errors = Some (errors ++ errorsOfLogs logs).
Proof.
  revert errors; induction logs as [|log logs IH]; intros errors; simpl.
  - now rewrite app_nil_r.
  - rewrite scanLog_spec, IH. unfold errorsOfLogs. simpl.
    now rewrite app_assoc.
Qed.

(** *** Termination for any pattern *)

Section AnyPattern.

Variable rx : matcher.

(** A match does not end before it starts; it may be empty. *)
Hypothesis rx_forward :
  forall s i e caps, rx s i = Some (e, caps) -> i <= e.

(** Each iteration moves [lastIndex] forward, so the loop ends within
    [length log + 2 - lastIndex] iterations. *)
Lemma scanLoop_terminates (fuel : nat) (log : jsstring) (li : nat)
    (errors : list jsstring) :
  S (length log) - li < fuel ->
  exists result, scanLoop rx fuel log li errors = Some result.
Proof.
  revert li errors; induction fuel as [|fuel IH]; intros li errors Hfuel;
    [lia|].
  simpl. unfold exec.
  destruct (Nat.ltb_spec (length log) li) as [?|Hli]; [eauto|].
  destruct (searchFrom rx log li (S (length log - li)))
    as [[[i e] caps]|] eqn:Es; [|eauto].
  apply searchFrom_start in Es. destruct Es as [Hi He].
  apply rx_forward in He. simpl.
  apply IH. destruct (Nat.eqb_spec i e); lia.
Qed.

End AnyPattern.

Lemma emptyRegex_forward (s : jsstring) (i e : nat) (caps : list jsstring) :
  emptyRegex s i = Some (e, caps) -> i <= e.
Proof. intros [= <- _]. lia. Qed.

(** The guard matters: on a pattern with empty matches the loop without
    it never ends, whatever the fuel. *)
Lemma scanLoopUnguarded_spins (fuel : nat) (log : jsstring)
    (errors : list jsstring) :
  scanLoopUnguarded emptyRegex fuel log 0 errors = None.
Proof.
  revert errors; induction fuel as [|fuel IH]; intros errors;
    [reflexivity|].
  simpl. apply IH.
Qed.

Example scanLoop_guarded_empty_matches :
  scanLoop emptyRegex 5 (str "abc") 0 [] = Some [].
Proof. reflexivity. Qed.

End ScanFacts.

(** ** The transaction helpers, step by step *)

Module TxFacts.
Import Web3 Async Tx.

Lemma noLogs_logsOf (tx : option ParsedConfirmedTransaction) :
  noLogs tx -> logsOf tx = None.
Proof.
  intros [-> | [(t & -> & Hm) | (t & m & -> & Hm & Hl)]]; simpl;
    [reflexivity | now rewrite Hm | now rewrite Hm].
Qed.

Lemma failureMessage_contains_txid (txid json : jsstring) :
  contains txid (failureMessage txid json).
Proof.
  exists (str "Raw transaction "), (str " failed (" ++ json ++ str ")").
  reflexivity.
Qed.

Lemma failureMessage_contains_status (txid json : jsstring) :
  contains json (failureMessage txid json).
Proof.
  exists (str "Raw transaction " ++ txid ++ str " failed ("), (str ")").
  unfold failureMessage. now rewrite <- !app_assoc.
Qed.

Lemma containsb_unfold (needle hay : jsstring) :
  containsb needle hay =
    match stripPrefix needle hay with
    | Some _ => true
    | None => match hay with
              | [] => false
              | _ :: hay' => containsb needle hay'
              end
    end.
Proof. destruct hay; reflexivity. Qed.

Lemma contains_containsb (needle hay : jsstring) :
  contains needle hay -> containsb needle hay = true.
Proof.
  intros (before & after & ->).
  induction before as [|c before IH]; rewrite containsb_unfold.
  - simpl. now rewrite stripPrefix_app.
  - destruct (stripPrefix needle ((c :: before) ++ needle ++ after));
      [reflexivity | exact IH].
Qed.

(** *** Assembling *)

Lemma fold_add (l : list TransactionInstruction) (t : Transaction) :
  fold_left add l t =
    mkTransaction (signatures t) (instructions t ++ l) (recentBlockhash t).
Proof.
  revert t; induction l as [|i l IH]; intros t; simpl.
  - rewrite app_nil_r. now destruct t.
  - rewrite IH. simpl. now rewrite <- app_assoc.
Qed.

(** What lines 159-169 ask of the library: [setSigners] with the fee payer
    first and then the signers' keys, on a transaction that holds the
    instructions in their order and the blockhash; then [partialSign]
    with the signers, unless there are none. *)
Lemma assemble_unfold (env : Env) (feePayer : PublicKey)
    (instrs : list TransactionInstruction) (signers : list Account)
    (recent : BlockhashResponse) :
  assemble env feePayer instrs signers recent =
    match lib_setSigners env (feePayer :: map publicKey signers)
            (mkTransaction [] instrs (Some (blockhash recent))) with
    | Fulfilled slots =>
        match signers with
        | [] => Fulfilled slots
        | _ :: _ => lib_partialSign env signers slots
        end
    | Rejects e => Rejects e
    end.
Proof.
  unfold assemble. rewrite fold_add. simpl.
  destruct (lib_setSigners env _ _); [|reflexivity].
  now destruct signers.
Qed.

(** *** Running [getErrorForTransaction] *)

Lemma getErrorForTransaction_run (env : Env) (h : list event)
    (c : Connection) (txid : jsstring) :
  getErrorForTransaction c txid env h =
    let r1 := rpc_confirmTransaction env h c txid Max in
    let h1 := h ++ [EConfirmTransaction c txid Max r1] in
    match r1 with
    | Rejects e => (Propagated e, h1)
    | Fulfilled _ =>
        let r2 := rpc_getParsedConfirmedTransaction env h1 c txid in
        let h2 := h1 ++ [EGetParsedConfirmedTransaction c txid r2] in
        match r2 with
        | Rejects e => (Propagated e, h2)
        | Fulfilled tx =>
            (Returned (match logsOf tx with
                       | Some logs => Scan.errorsOfLogs logs
                       | None => []
                       end), h2)
        end
    end.
Proof.
  unfold getErrorForTransaction, bind, confirmTransaction,
    getParsedConfirmedTransaction, await.
  cbv zeta.
  destruct (rpc_confirmTransaction env h c txid Max); [|reflexivity].
  destruct (rpc_getParsedConfirmedTransaction env _ c txid) as [tx|];
    [|reflexivity].
  destruct (logsOf tx) as [logs|]; [|reflexivity].
  now rewrite ScanFacts.scanLogs_spec.
Qed.

(** *** Running [sendTransaction] *)

Lemma run_without_key (env : Env) (c : Connection)
    (wallet : option WalletAdapter) (instrs : list TransactionInstruction)
    (signers : list Account) (aw : bool) :
  optionalPublicKey wallet = None ->
  run (sendTransaction c wallet instrs signers aw) env = (Thrown notConnected, []).
Proof.
  unfold run, sendTransaction, optionalPublicKey.
  destruct wallet as [w|]; [|reflexivity].
  now intros ->.
Qed.

Ltac settle H :=
  repeat match type of H with
  | context [match ?x with Fulfilled _ => _ | Rejects _ => _ end] =>
      let E := fresh "E" in destruct x eqn:E
  end.

(** Split a run [H : run (sendTransaction ...) env = (out, trace)] of a
    connected wallet into its possible courses, one per collaborator
    that may reject and per branch taken. *)
Ltac run_cases H feePayer instrs signers aw :=
  unfold run, sendTransaction, optionalPublicKey in H;
  unfold bind, getRecentBlockhash, signTransaction, serialize,
    sendRawTransaction, confirmTransaction, notify, stringify, await,
    library, ret, throw in H;
  cbv zeta in H; cbn [app] in H;
  destruct aw;
  match type of H with
  | context [rpc_getRecentBlockhash ?env ?h ?c ?cm] =>
      let recent := fresh "recent" in
      let E := fresh "E" in
      destruct (rpc_getRecentBlockhash env h c cm) as [recent|] eqn:E;
      [ let t := fresh "t" in
        let Hasm := fresh "Hasm" in
        pose proof (assemble_unfold env feePayer instrs signers recent) as Hasm;
        destruct (assemble env feePayer instrs signers recent) as [t|];
        settle H | ]
  end;
  try match type of H with
      | context [status_err ?s] =>
          let Es := fresh "Es" in destruct (status_err s) eqn:Es
      end;
  try (rewrite getErrorForTransaction_run in H; cbv zeta in H);
  settle H; cbn [app] in H;
  injection H as <- <-.

(** Membership in an explicit trace, case by case. *)
Ltac in_trace :=
  repeat match goal with
  | H : In _ (_ :: _) |- _ => destruct H as [H|H]
  | H : In _ [] |- _ => destruct H
  | H : _ = _ |- _ => discriminate H
  | H : _ = _ |- _ => progress (injection H as H; subst)
  end.

End TxFacts.

(** ** The provider's hooks, commit by commit *)

Module ProviderFacts.
Import Web3 Provider.

#[local] Arguments useMemo : simpl never.
#[local] Arguments commitCleanup : simpl never.
#[local] Arguments commitEffect : simpl never.
#[local] Arguments mountEffect : simpl never.
#[local] Arguments subscribe : simpl never.
#[local] Arguments unsubscribe : simpl never.

Lemma subscriptionsAt_Some (w : World) (c : nat)
    (a : gmap nat AccountSubscription) (s : gmap nat Callback) :
  subscriptionsAt w c = Some (a, s) <->
  exists o, heap w !! c = Some o /\
            accountChangeSubscriptions o = a /\ slotChangeSubscriptions o = s.
Proof.
  unfold subscriptionsAt. destruct (heap w !! c) as [o|]; simpl.
  - split.
    + intros [= <- <-]. eauto.
    + intros (o' & [= <-] & <- & <-). reflexivity.
  - split; [discriminate | intros (? & ? & _); discriminate].
Qed.

(** An address in use lies below [nextAddress]. *)
Lemma allocated (w : World) (c : nat) (o : ConnectionObject) :
  wellFormed w -> heap w !! c = Some o -> c < nextAddress w.
Proof.
  intros Hwf Hc.
  destruct (Nat.lt_ge_cases c (nextAddress w)) as [|Hge]; [assumption|].
  apply Hwf in Hge. congruence.
Qed.

(** *** The library's calls, one at a time *)

Lemma newConnection_accepted (e : jsstring) (cm : Commitment) (w : World) :
  constructs (web3 w) e = true ->
  newConnection e cm w =
    Some (nextAddress w,
          mkWorld (<[nextAddress w := mkConnectionObject e cm ∅ 0 ∅ 0]> (heap w))
                  (S (nextAddress w)) (localStorage w) (accountsCreated w)
                  (web3 w)).
Proof. intros H. unfold newConnection. now rewrite H. Qed.

Lemma newConnection_refused (e : jsstring) (cm : Commitment) (w : World) :
  constructs (web3 w) e = false -> newConnection e cm w = None.
Proof. intros H. unfold newConnection. now rewrite H. Qed.

Lemma subscribe_account (c : nat) (w : World) (o : ConnectionObject) :
  heap w !! c = Some o ->
  subscribes (web3 w) (rpcEndpoint o) = true ->
  subscribe AccountChange c w =
    Some (S (accountChangeSubscriptionCounter o),
          setObject c
            (withAccountSubscriptions
               (<[S (accountChangeSubscriptionCounter o) :=
                    mkAccountSub (fst (newAccountKey w)) NoOp]>
                  (accountChangeSubscriptions o))
               (S (accountChangeSubscriptionCounter o)) o)
            (snd (newAccountKey w))).
Proof.
  intros Ho Hs. unfold subscribe, newAccountKey, onAccountChange. simpl.
  rewrite Ho. simpl. now rewrite Hs.
Qed.

Lemma subscribe_slot (c : nat) (w : World) (o : ConnectionObject) :
  heap w !! c = Some o ->
  subscribes (web3 w) (rpcEndpoint o) = true ->
  subscribe SlotChange c w =
    Some (S (slotChangeSubscriptionCounter o),
          setObject c
            (withSlotSubscriptions
               (<[S (slotChangeSubscriptionCounter o) := NoOp]>
                  (slotChangeSubscriptions o))
               (S (slotChangeSubscriptionCounter o)) o) w).
Proof.
  intros Ho Hs. unfold subscribe, onSlotChange.
  rewrite Ho. simpl. now rewrite Hs.
Qed.

(** A websocket client that refuses the endpoint makes the effect throw. *)
Lemma subscribe_refused (k : EffectKind) (c : nat) (w : World)
    (o : ConnectionObject) :
  heap w !! c = Some o ->
  subscribes (web3 w) (rpcEndpoint o) = false ->
  subscribe k c w = None.
Proof.
  intros Ho Hs.
  destruct k; unfold subscribe, newAccountKey, onAccountChange, onSlotChange;
    simpl; rewrite Ho; simpl; now rewrite Hs.
Qed.

Lemma unsubscribe_account (c id : nat) (w : World) (o : ConnectionObject)
    (s : AccountSubscription) :
  heap w !! c = Some o ->
  accountChangeSubscriptions o !! id = Some s ->
  unsubscribe AccountChange c id w =
    Some (setObject c
            (withAccountSubscriptions
               (delete id (accountChangeSubscriptions o))
               (accountChangeSubscriptionCounter o) o) w).
Proof.
  intros Ho Hs. unfold unsubscribe, removeAccountChangeListener.
  rewrite Ho. simpl. now rewrite Hs.
Qed.

Lemma unsubscribe_slot (c id : nat) (w : World) (o : ConnectionObject)
    (cb : Callback) :
  heap w !! c = Some o ->
  slotChangeSubscriptions o !! id = Some cb ->
  unsubscribe SlotChange c id w =
    Some (setObject c
            (withSlotSubscriptions (delete id (slotChangeSubscriptions o))
               (slotChangeSubscriptionCounter o) o) w).
Proof.
  intros Ho Hs. unfold unsubscribe, removeSlotChangeListener.
  rewrite Ho. simpl. now rewrite Hs.
Qed.

(** *** One effect through a commit *)

(** An effect whose connection was replaced drops its listener from the
    old object and ... *)
Lemma commitCleanup_changed (k : EffectKind) (cell : EffectCell) (c : nat)
    (w : World) :
  dep cell <> c ->
  commitCleanup k cell c w = unsubscribe k (dep cell) (listener cell) w.
Proof. intros H. unfold commitCleanup. now rewrite decide_False. Qed.

(** ... subscribes to the new one. *)
Lemma commitEffect_changed (k : EffectKind) (cell : EffectCell) (c : nat)
    (w : World) :
  dep cell <> c -> commitEffect k cell c w = mountEffect k c w.
Proof. intros H. unfold commitEffect. now rewrite decide_False. Qed.

Lemma commitCleanup_same (k : EffectKind) (cell : EffectCell) (w : World) :
  commitCleanup k cell (dep cell) w = Some w.
Proof. unfold commitCleanup. now rewrite decide_True. Qed.

Lemma commitEffect_same (k : EffectKind) (cell : EffectCell) (w : World) :
  commitEffect k cell (dep cell) w = Some (cell, w).
Proof. unfold commitEffect. now rewrite decide_True. Qed.

Lemma useMemo_changed (e d : jsstring) (c : nat) (w : World) :
  d <> e -> useMemo e d c w = newConnection e Recent w.
Proof. intros H. unfold useMemo. now rewrite decide_False. Qed.

Lemma useMemo_same (e : jsstring) (c : nat) (w : World) :
  useMemo e e c w = Some (c, w).
Proof. unfold useMemo. now rewrite decide_True. Qed.

Ltac heap_lookup :=
  simpl;
  repeat first [ rewrite lookup_insert_eq
               | rewrite lookup_insert_ne by (congruence || lia)
               | rewrite lookup_singleton_eq ];
  (eassumption || reflexivity).

Ltac cleanup_steps :=
  do 2 (rewrite commitCleanup_changed by (simpl; lia);
        erewrite unsubscribe_account by heap_lookup; simpl;
        rewrite commitCleanup_changed by (simpl; lia);
        erewrite unsubscribe_slot by heap_lookup; simpl).

Ltac commit_steps :=
  cleanup_steps;
  do 2 (rewrite commitEffect_changed by (simpl; lia); unfold mountEffect;
        erewrite subscribe_account by heap_lookup; simpl;
        rewrite commitEffect_changed by (simpl; lia); unfold mountEffect;
        erewrite subscribe_slot by heap_lookup; simpl).

Ltac tables :=
  unfold subscriptionsAt, endpointAt; simpl;
  repeat first [ rewrite lookup_insert_eq
               | rewrite lookup_insert_ne by (congruence || lia) ];
  simpl;
  rewrite ?insert_empty, ?delete_singleton_eq;
  try reflexivity.

(** Switching to another endpoint that the library takes: both
    connections are new objects for that endpoint, each with one listener
    per table, and the replaced objects are left without listeners. *)
Lemma setEndpoint_switch (w : World) (f : Fiber) (val : jsstring) :
  consistent w f -> val <> endpoint f ->
  constructs (web3 w) val = true -> subscribes (web3 w) val = true ->
  exists w' f',
    setEndpoint val w f = Some (w', f') /\
    (connection f' = nextAddress w /\
     sendConnection f' = S (nextAddress w) /\
     endpoint f' = val) /\
    (endpointAt w' (connection f') = Some val /\
     endpointAt w' (sendConnection f') = Some val) /\
    (subscriptionsAt w' (connection f) = Some (∅, ∅) /\
     subscriptionsAt w' (sendConnection f) = Some (∅, ∅)) /\
    consistent w' f'.
Proof.
  intros (Hwf & Hne & Hd1 & Hd2 & (Ha1 & Hs1 & k1 & Hsub1)
                               & (Ha2 & Hs2 & k2 & Hsub2)) Hval Hnew Hws.
  apply subscriptionsAt_Some in Hsub1 as (o1 & Ho1 & Hacc1 & Hslot1).
  apply subscriptionsAt_Some in Hsub2 as (o2 & Ho2 & Hacc2 & Hslot2).
  pose proof (allocated _ _ _ Hwf Ho1) as Hlt1.
  pose proof (allocated _ _ _ Hwf Ho2) as Hlt2.
  destruct f as [ep sl cd c sd sc [d1 l1] [d2 l2] [d3 l3] [d4 l4]].
  destruct o1 as [r1 cm1 as1 ac1 ss1 sc1], o2 as [r2 cm2 as2 ac2 ss2 sc2].
  simpl in *. subst.
  unfold setEndpoint, rerender. simpl.
  rewrite useMemo_changed by congruence.
  rewrite newConnection_accepted by (simpl; assumption). simpl.
  rewrite useMemo_changed by congruence.
  rewrite newConnection_accepted by (simpl; assumption). simpl.
  commit_steps.
  eexists _, _. split; [reflexivity|]. simpl.
  split; [auto|]. split; [split; tables|]. split; [split; tables|].
  repeat split; simpl; try lia.
  - intros a Ha. simpl in Ha |- *.
    rewrite !lookup_insert_ne by lia. apply Hwf. lia.
  - eexists. tables.
  - eexists. tables.
Qed.

(** Switching to an endpoint that the library refuses throws: in the
    constructor, or else in the first effect that subscribes. *)
Lemma setEndpoint_refused (w : World) (f : Fiber) (val : jsstring) :
  consistent w f -> val <> endpoint f ->
  accepts w val = false ->
  setEndpoint val w f = None.
Proof.
  intros (Hwf & Hne & Hd1 & Hd2 & (Ha1 & Hs1 & k1 & Hsub1)
                               & (Ha2 & Hs2 & k2 & Hsub2)) Hval Hacc.
  apply subscriptionsAt_Some in Hsub1 as (o1 & Ho1 & Hacc1 & Hslot1).
  apply subscriptionsAt_Some in Hsub2 as (o2 & Ho2 & Hacc2 & Hslot2).
  pose proof (allocated _ _ _ Hwf Ho1) as Hlt1.
  pose proof (allocated _ _ _ Hwf Ho2) as Hlt2.
  destruct f as [ep sl cd c sd sc [d1 l1] [d2 l2] [d3 l3] [d4 l4]].
  destruct o1 as [r1 cm1 as1 ac1 ss1 sc1], o2 as [r2 cm2 as2 ac2 ss2 sc2].
  simpl in *. subst.
  unfold accepts in Hacc.
  unfold setEndpoint, rerender. simpl.
  rewrite useMemo_changed by congruence.
  destruct (constructs (web3 w) val) eqn:Hnew.
  - simpl in Hacc.
    rewrite newConnection_accepted by (simpl; assumption). simpl.
    rewrite useMemo_changed by congruence.
    rewrite newConnection_accepted by (simpl; assumption). simpl.
    cleanup_steps.
    rewrite commitEffect_changed by (simpl; lia). unfold mountEffect.
    erewrite subscribe_refused by heap_lookup. reflexivity.
  - now rewrite newConnection_refused by (simpl; assumption).
Qed.

(** Rendering again without a change of endpoint touches nothing. *)
Lemma rerender_stable (w : World) (f : Fiber) :
  connectionDep f = endpoint f -> sendConnectionDep f = endpoint f ->
  dep (accountEffect f) = connection f ->
  dep (slotEffect f) = connection f ->
  dep (sendAccountEffect f) = sendConnection f ->
  dep (sendSlotEffect f) = sendConnection f ->
  rerender w f =
    Some (w, mkFiber (endpoint f) (slippage f) (endpoint f) (connection f)
               (endpoint f) (sendConnection f) (accountEffect f)
               (slotEffect f) (sendAccountEffect f) (sendSlotEffect f)).
Proof.
  intros Hd1 Hd2 H1 H2 H3 H4. unfold rerender.
  rewrite Hd1, Hd2, useMemo_same. simpl. rewrite useMemo_same. simpl.
  rewrite <- H1 at 1. rewrite commitCleanup_same. simpl.
  rewrite <- H2 at 1. rewrite commitCleanup_same. simpl.
  rewrite <- H3 at 1. rewrite commitCleanup_same. simpl.
  rewrite <- H4 at 1. rewrite commitCleanup_same. simpl.
  rewrite <- H1 at 1. rewrite commitEffect_same. simpl.
  rewrite <- H2 at 1. rewrite commitEffect_same. simpl.
  rewrite <- H3 at 1. rewrite commitEffect_same. simpl.
  rewrite <- H4 at 1. rewrite commitEffect_same. simpl.
  reflexivity.
Qed.

(** The invariant does not look at local storage or at the slippage. *)
Lemma consistent_store (w : World) (f : Fiber) (key val sl : jsstring) :
  consistent w f ->
  consistent (useLocalStorage_store key val w)
    (mkFiber (endpoint f) sl (endpoint f) (connection f) (endpoint f)
       (sendConnection f) (accountEffect f) (slotEffect f)
       (sendAccountEffect f) (sendSlotEffect f)).
Proof.
  intros (Hwf & Hne & Hd1 & Hd2 & Hk1 & Hk2).
  repeat split; simpl; try assumption; try apply Hk1; try apply Hk2.
Qed.

Lemma setEndpoint_same (w : World) (f : Fiber) :
  consistent w f ->
  exists w' f',
    setEndpoint (endpoint f) w f = Some (w', f') /\
    connection f' = connection f /\ sendConnection f' = sendConnection f /\
    consistent w' f'.
Proof.
  intros Hc. pose proof Hc as (Hwf & Hne & Hd1 & Hd2 & Hk1 & Hk2).
  unfold setEndpoint. rewrite rerender_stable; simpl;
    try assumption; try apply Hk1; try apply Hk2.
  eexists _, _. split; [reflexivity|]. simpl.
  split; [reflexivity|]. split; [reflexivity|].
  now apply consistent_store.
Qed.

Lemma setSlippageText_consistent (w : World) (f : Fiber) (text : jsstring)
    (w' : World) (f' : Fiber) :
  consistent w f -> setSlippageText text w f = Some (w', f') ->
  consistent w' f'.
Proof.
  intros Hc. pose proof Hc as (Hwf & Hne & Hd1 & Hd2 & Hk1 & Hk2).
  unfold setSlippageText. rewrite rerender_stable; simpl;
    try assumption; try apply Hk1; try apply Hk2.
  intros [= <- <-]. now apply consistent_store.
Qed.

Lemma rerender_consistent (w : World) (f : Fiber) (w' : World) (f' : Fiber) :
  consistent w f -> rerender w f = Some (w', f') -> consistent w' f'.
Proof.
  intros Hc. pose proof Hc as (Hwf & Hne & Hd1 & Hd2 & Hk1 & Hk2).
  rewrite rerender_stable;
    try assumption; try apply Hk1; try apply Hk2.
  intros [= <- <-].
  repeat split; simpl; try assumption; try apply Hk1; try apply Hk2.
Qed.

(** Mounting in a well-formed world establishes the invariant. *)
Lemma mount_consistent (api : Cluster -> jsstring) (envCluster : option Cluster)
    (w w' : World) (f : Fiber) :
  wellFormed w -> mount api envCluster w = Some (w', f) -> consistent w' f.
Proof.
  intros Hwf. unfold mount. cbv zeta.
  set (e := useLocalStorage_initial KEY_ENDPOINT _ w).
  destruct (constructs (web3 w) e) eqn:Hnew;
    [| now rewrite newConnection_refused].
  rewrite newConnection_accepted by assumption. simpl.
  rewrite newConnection_accepted by (simpl; assumption). simpl.
  unfold mountEffect.
  destruct (subscribes (web3 w) e) eqn:Hws;
    [| now erewrite subscribe_refused by heap_lookup].
  erewrite subscribe_account by heap_lookup. simpl.
  erewrite subscribe_slot by heap_lookup. simpl.
  erewrite subscribe_account by heap_lookup. simpl.
  erewrite subscribe_slot by heap_lookup. simpl.
  intros [= <- <-].
  repeat split; simpl; try lia.
  - intros a Ha. simpl in Ha |- *.
    rewrite !lookup_insert_ne by lia. apply Hwf. lia.
  - eexists. tables.
  - eexists. tables.
Qed.

Lemma reachable_consistent (api : Cluster -> jsstring)
    (envCluster : option Cluster) (w : World) (f : Fiber) :
  reachable api envCluster w f -> consistent w f.
Proof.
  induction 1 as [w w' f Hwf Hm | val w f w' f' _ IH Hs
                 | text w f w' f' _ IH Hs | w f w' f' _ IH Hs].
  - eapply mount_consistent; eassumption.
  - destruct (decide (val = endpoint f)) as [->|Hne].
    + destruct (setEndpoint_same w f IH) as (w1 & f1 & E & _ & _ & Hc).
      rewrite E in Hs. now injection Hs as <- <-.
    + destruct (accepts w val) eqn:Hacc.
      * apply andb_prop in Hacc as [Hnew Hws].
        destruct (setEndpoint_switch w f val IH Hne Hnew Hws)
          as (w1 & f1 & E & _ & _ & _ & Hc).
        rewrite E in Hs. now injection Hs as <- <-.
      * rewrite (setEndpoint_refused w f val IH Hne Hacc) in Hs.
        discriminate Hs.
  - eapply setSlippageText_consistent; eassumption.
  - eapply rerender_consistent; eassumption.
Qed.

(** *** The network identifier *)

Lemma name_endpointOf (api : Cluster -> jsstring) (c : Cluster) :
  name (endpointOf api c) = c.
Proof. now destruct c. Qed.

Lemma ENDPOINTS_other (api : Cluster -> jsstring) (key : jsstring) :
  key <> str "mainnet-beta" -> key <> str "testnet" -> key <> str "devnet" ->
  ENDPOINTS api !! key = None.
Proof.
  intros H1 H2 H3. unfold ENDPOINTS. simpl.
  rewrite !lookup_insert_ne by congruence. apply lookup_empty.
Qed.

(** No property of the object, own or inherited, starts with [http]. *)
Lemma http_is_no_property (rest : jsstring) :
  let url := str "http" ++ rest in
  url <> str "mainnet-beta" /\ url <> str "testnet" /\ url <> str "devnet" /\
  Object_prototype !! url = None.
Proof.
  cbv zeta. repeat split; try (intros H; vm_compute in H; discriminate H).
  unfold Object_prototype. simpl.
  rewrite !lookup_insert_ne
    by (intros H; vm_compute in H; discriminate H).
  apply lookup_empty.
Qed.

Lemma network_default (api : Cluster -> jsstring)
    (envCluster : option Cluster) (key : jsstring) :
  key <> str "mainnet-beta" -> key <> str "testnet" -> key <> str "devnet" ->
  Object_prototype !! key = None ->
  network api envCluster key = Some (clusterName (DEFAULT_CLUSTER envCluster)).
Proof.
  intros H1 H2 H3 Hp. unfold network, ENDPOINTS_get.
  rewrite ENDPOINTS_other, Hp by assumption. simpl.
  unfold DEFAULT_ENDPOINT. now rewrite name_endpointOf.
Qed.

Lemma rerender_endpoint (w : World) (f : Fiber) (w' : World) (f' : Fiber) :
  rerender w f = Some (w', f') -> endpoint f' = endpoint f.
Proof.
  unfold rerender. intros H.
  repeat match type of H with
         | (?m ≫= _) = Some _ =>
             first [ destruct m as [[? ?]|] eqn:?
                   | destruct m as [?|] eqn:? ];
             simpl in H; [|discriminate H]
         end.
  now injection H as <- <-.
Qed.

Lemma setEndpoint_endpoint (val : jsstring) (w : World) (f : Fiber)
    (w' : World) (f' : Fiber) :
  setEndpoint val w f = Some (w', f') -> endpoint f' = val.
Proof. intros H. now apply rerender_endpoint in H. Qed.

End ProviderFacts.

(* ===================================================================== *)
(** * The specification's properties *)
(* ===================================================================== *)

Section Properties.
Import Web3 Async Tx TxFacts.

(** C1, as the code has it.  When the record queried by
    [getErrorForTransaction] carries log messages, the extracted list
    holds, in order, exactly one entry for every line of every message
    (a message split at line terminators) that mentions [Error: ]: the
    text after the first mention, up to the end of that line.  A later
    [Error: ] on the same line is part of that entry and gets no entry
    of its own. *)
Theorem getErrorForTransaction_one_entry_per_line
    (env : Env) (c : Connection) (txid : jsstring)
    (out : outcome (list jsstring)) (trace : list event)
    (tx : option ParsedConfirmedTransaction) (logs : list jsstring) :
  run (getErrorForTransaction c txid) env = (out, trace) ->
  In (EGetParsedConfirmedTransaction c txid (Fulfilled tx)) trace ->
  logsOf tx = Some logs ->
  out = Returned (Scan.errorsOfLogs logs).
Proof.
  unfold run. rewrite getErrorForTransaction_run. cbv zeta. simpl app.
  intros Hrun Hin Hlogs.
  destruct (rpc_confirmTransaction env [] c txid Max);
    [destruct (rpc_getParsedConfirmedTransaction env _ c txid)|];
    injection Hrun as <- <-; in_trace.
  now rewrite Hlogs.
Qed.

(** C2.  When the wallet is absent or has no public key,
    [sendTransaction] throws before it talks to any collaborator: the
    trace of the call is empty, so there is no recent-blockhash fetch, no
    submission and no confirmation query. *)
Theorem sendTransaction_requires_public_key
    (env : Env) (c : Connection) (wallet : option WalletAdapter)
    (instrs : list TransactionInstruction) (signers : list Account)
    (awaitConfirmation : bool) :
  optionalPublicKey wallet = None ->
  run (sendTransaction c wallet instrs signers awaitConfirmation) env =
    (Thrown notConnected, []).
Proof.
  unfold run, sendTransaction, optionalPublicKey.
  destruct wallet as [w|]; [|reflexivity].
  now intros ->.
Qed.


(** C4, as the code has it.  [sendTransaction] fails of its own accord
    in two ways only.  Without a public key it throws at once, before
    any interaction.  With [awaitConfirmation] set and a confirmation
    status that reports an error it never returns: either the last thing
    it did was an interaction of the log re-query or the notification
    that was rejected, and the caller gets the error of that rejection
    as it is; or it throws an error whose message contains the
    transaction id and the stringified status. *)
Theorem sendTransaction_failure_modes
    (env : Env) (c : Connection) (wallet : option WalletAdapter)
    (instrs : list TransactionInstruction) (signers : list Account)
    (awaitConfirmation : bool) (out : outcome jsstring)
    (trace : list event) :
  run (sendTransaction c wallet instrs signers awaitConfirmation) env =
    (out, trace) ->
  (optionalPublicKey wallet = None ->
     out = Thrown notConnected /\ trace = []) /\
  (forall txid response,
     awaitConfirmation = true ->
     In (EConfirmTransaction c txid SingleGossip (Fulfilled response)) trace ->
     status_err (value response) = true ->
     (exists e interaction,
        last trace = Some interaction /\ 5 <= stage interaction /\
        rejection interaction = Some e /\ out = Propagated e) \/
     (out = Thrown (failed env txid (value response)) /\
      contains txid (message (failed env txid (value response))) /\
      contains (JSON_stringify env (value response))
               (message (failed env txid (value response))))) /\
  (forall e,
     out = Thrown e ->
     (optionalPublicKey wallet = None /\ e = notConnected) \/
     (awaitConfirmation = true /\
      exists txid response,
        In (EConfirmTransaction c txid SingleGossip (Fulfilled response)) trace /\
        status_err (value response) = true /\
        e = failed env txid (value response))).
Proof.
  intros Hrun.
  destruct (optionalPublicKey wallet) as [feePayer|] eqn:Hw.
  2:{ rewrite run_without_key in Hrun by assumption.
      injection Hrun as <- <-.
      split; [auto|]. split; [intros ? ? _ []|].
      intros e [= <-]. now left. }
  destruct wallet as [w|]; [simpl in Hw|discriminate Hw].
  unfold run, sendTransaction in Hrun. rewrite Hw in Hrun.
  split; [discriminate|].
  run_cases Hrun feePayer instrs signers awaitConfirmation; split.
  all: try (intros txid response Haw Hin Herr; try discriminate Haw;
            in_trace; try congruence;
            first [ left; do 2 eexists;
                    (split; [reflexivity|]);
                    (split; [simpl; lia|]); split; reflexivity
                  | right; split;
                    [ reflexivity
                    | split; [ apply failureMessage_contains_txid
                             | apply failureMessage_contains_status ] ] ]).
  all: intros e' He; try discriminate He;
    (injection He as <-; right; split; [reflexivity|];
     do 2 eexists;
     split; [simpl; eauto 10 | split; [eassumption|reflexivity]]).
Qed.

(** C5.  The scanning loop of [getErrorForTransaction] ends on every log
    message, within [length log + 2] iterations; and so does the same
    loop run with a pattern whose matches are all empty, which is what
    the guard on [lastIndex] is for. *)
Theorem scanLoop_always_terminates
    (log : jsstring) (errors : list jsstring) (extra : nat) :
  (exists result,
     Scan.scanLoop RegExp.errorRegex (Scan.scanBound log + extra) log 0 errors
     = Some result) /\
  (exists result,
     Scan.scanLoop RegExp.emptyRegex (Scan.scanBound log + extra) log 0 errors
     = Some result).
Proof.
  unfold Scan.scanBound. split.
  - apply ScanFacts.scanLoop_terminates; [|lia].
    intros s i e caps. unfold RegExp.errorRegex.
    destruct (stripPrefix _ _); [|discriminate].
    intros [= <- _]. lia.
  - apply ScanFacts.scanLoop_terminates; [|lia].
    apply ScanFacts.emptyRegex_forward.
Qed.


(** C10.  When the queried record is null, or has no meta, or has no log
    messages, [getErrorForTransaction] returns the empty list. *)
Theorem getErrorForTransaction_without_logs
    (env : Env) (c : Connection) (txid : jsstring)
    (out : outcome (list jsstring)) (trace : list event)
    (tx : option ParsedConfirmedTransaction) :
  run (getErrorForTransaction c txid) env = (out, trace) ->
  In (EGetParsedConfirmedTransaction c txid (Fulfilled tx)) trace ->
  noLogs tx ->
  out = Returned [].
Proof.
  unfold run. rewrite getErrorForTransaction_run. cbv zeta. simpl app.
  intros Hrun Hin Hlogs. apply noLogs_logsOf in Hlogs.
  destruct (rpc_confirmTransaction env [] c txid Max);
    [destruct (rpc_getParsedConfirmedTransaction env _ c txid)|];
    injection Hrun as <- <-; in_trace.
  now rewrite Hlogs.
Qed.

Import Provider ProviderFacts.


(** C9, as the code has it.  For every stored endpoint string that is
    neither one of the keys [mainnet-beta], [testnet], [devnet] nor the
    name of a property that every object inherits from
    [Object.prototype], the exposed network identifier is the default
    cluster's name; every string that starts with [http] is such a
    string, so selecting an endpoint by its URL leaves the identifier at
    the default. *)
Theorem network_is_default_off_the_keys
    (api : Cluster -> jsstring) (envCluster : option Cluster) :
  (forall f : Fiber,
     endpoint f <> str "mainnet-beta" ->
     endpoint f <> str "testnet" ->
     endpoint f <> str "devnet" ->
     Object_prototype !! endpoint f = None ->
     cfg_network (contextValue api envCluster f) =
       Some (clusterName (DEFAULT_CLUSTER envCluster))) /\
  (forall (rest : jsstring) (w : World) (f : Fiber) (w' : World) (f' : Fiber),
     setEndpoint (str "http" ++ rest) w f = Some (w', f') ->
     cfg_network (contextValue api envCluster f') =
       Some (clusterName (DEFAULT_CLUSTER envCluster))).
Proof.
  split.
  - intros f H1 H2 H3 Hp. simpl. now apply network_default.
  - intros rest w f w' f' Hset. simpl.
    rewrite (setEndpoint_endpoint _ _ _ _ _ Hset).
    destruct (http_is_no_property rest) as (H1 & H2 & H3 & Hp).
    now apply network_default.
Qed.

End Properties.

(* ===================================================================== *)
(** * Concrete runs *)
(* ===================================================================== *)

Module Runs.
Import Web3 Async Tx TxFacts Samples.

Example failedStake_outcome :
  fst failedStake = Thrown (failed (fulfilling customError (withLogs stakeLogs))
                                   txid customError).
Proof. reflexivity. Qed.

Example failedStake_notification :
  In (ENotify (mkNotification (str "Transaction failed...")
                 [str "insufficient funds"] txid (str "error"))
              (Fulfilled tt))
     (snd failedStake).
Proof. vm_compute. intuition. Qed.

Example confirmedStake_outcome : fst confirmedStake = Returned txid.
Proof. reflexivity. Qed.

Example stakeLogs_errors :
  Scan.errorsOfLogs stakeLogs = [str "insufficient funds"].
Proof. reflexivity. Qed.

Example line_terminators_separate_entries :
  Scan.scanLogs [str "Error: A" ++ [10%N] ++ str "x Error: B" ++ [8232%N]
                   ++ str "Error: "] []
  = Some [str "A"; str "B"; []].
Proof. reflexivity. Qed.

End Runs.

Import Web3 Async Tx TxFacts Samples.

(** C1, counterexample.  A log message with two occurrences of [Error: ]
    on one line yields a single entry: the second occurrence is swallowed
    by the capture of the first. *)
Lemma getErrorForTransaction_merges_occurrences_on_a_line :
  Scan.occurrences (str "Error: A Error: B") 0 = [0; 9] /\
  Scan.occurrenceCount twoOnOneLine = 2 /\
  fst (scrape (withLogs twoOnOneLine)) = Returned [str "A Error: B"] /\
  ~ (forall logs errors,
       Scan.scanLogs logs [] = Some errors ->
       length errors = Scan.occurrenceCount logs).
Proof.
  repeat split; try reflexivity.
  intros H. specialize (H twoOnOneLine [str "A Error: B"] eq_refl).
  vm_compute in H. discriminate H.
Qed.

Lemma getErrorForTransaction_one_entry_per_line_witness :
  In (EGetParsedConfirmedTransaction connection txid
        (Fulfilled (withLogs stakeLogs)))
     (snd (scrape (withLogs stakeLogs))) /\
  logsOf (withLogs stakeLogs) = Some stakeLogs /\
  fst (scrape (withLogs stakeLogs)) = Returned (Scan.errorsOfLogs stakeLogs).
Proof.
  assert (Hin : In (EGetParsedConfirmedTransaction connection txid
                      (Fulfilled (withLogs stakeLogs)))
                   (snd (scrape (withLogs stakeLogs))))
    by (simpl; right; left; reflexivity).
  split; [exact Hin|]. split; [reflexivity|].
  exact (getErrorForTransaction_one_entry_per_line
           (fulfilling customError (withLogs stakeLogs)) connection txid
           (fst (scrape (withLogs stakeLogs)))
           (snd (scrape (withLogs stakeLogs)))
           (withLogs stakeLogs) stakeLogs eq_refl Hin eq_refl).
Defined.

Lemma sendTransaction_requires_public_key_witness :
  optionalPublicKey (Some disconnected) = None /\
  run (sendTransaction connection (Some disconnected) [transfer] [alice] true)
      (fulfilling succeeded None)
  = (Thrown notConnected, []).
Proof.
  split; [reflexivity|].
  exact (sendTransaction_requires_public_key (fulfilling succeeded None)
           connection (Some disconnected) [transfer] [alice] true eq_refl).
Defined.


(** C4, counterexample.  The confirmation reports an error, but the
    transport rejects the log re-query: what reaches the caller is the
    transport's error, whose message holds neither the transaction id nor
    the status. *)
Lemma sendTransaction_requery_rejection_propagates :
  In (EConfirmTransaction connection txid SingleGossip
        (Fulfilled (mkRpcResponse 42%N customError)))
     (snd failedStakeNoLogs) /\
  status_err customError = true /\
  last (snd failedStakeNoLogs) =
    Some (EGetParsedConfirmedTransaction connection txid
            (Rejects (mkError (str "503 Service Unavailable")))) /\
  fst failedStakeNoLogs = Propagated (mkError (str "503 Service Unavailable")) /\
  ~ contains txid (str "503 Service Unavailable") /\
  ~ contains (JSON_stringify (requeryRejected customError) customError)
             (str "503 Service Unavailable").
Proof.
  split; [simpl; intuition|]. split; [reflexivity|]. split; [reflexivity|].
  split; [reflexivity|].
  split; intros H; apply contains_containsb in H; vm_compute in H;
    discriminate H.
Qed.

Lemma sendTransaction_failure_modes_witness :
  failedStake = (fst failedStake, snd failedStake) /\
  In (EConfirmTransaction connection txid SingleGossip
        (Fulfilled (mkRpcResponse 42%N customError)))
     (snd failedStake) /\
  status_err customError = true /\
  ((exists e interaction,
      last (snd failedStake) = Some interaction /\ 5 <= stage interaction /\
      rejection interaction = Some e /\ fst failedStake = Propagated e) \/
   (fst failedStake =
      Thrown (failed (fulfilling customError (withLogs stakeLogs)) txid
                     customError) /\
    contains txid
      (message (failed (fulfilling customError (withLogs stakeLogs)) txid
                       customError)) /\
    contains (JSON_stringify (fulfilling customError (withLogs stakeLogs))
                             customError)
      (message (failed (fulfilling customError (withLogs stakeLogs)) txid
                       customError)))).
Proof.
  assert (Hin : In (EConfirmTransaction connection txid SingleGossip
                      (Fulfilled (mkRpcResponse 42%N customError)))
                   (snd failedStake))
    by (simpl; intuition).
  split; [reflexivity|]. split; [exact Hin|]. split; [reflexivity|].
  exact (proj1 (proj2 (sendTransaction_failure_modes
                         (fulfilling customError (withLogs stakeLogs))
                         connection (Some wallet) [transfer] [alice] true
                         (fst failedStake) (snd failedStake) eq_refl))
               txid (mkRpcResponse 42%N customError) eq_refl Hin eq_refl).
Defined.



Lemma getErrorForTransaction_without_logs_witness :
  In (EGetParsedConfirmedTransaction connection txid (Fulfilled None))
     (snd (scrape None)) /\
  noLogs None /\
  fst (scrape None) = Returned [].
Proof.
  assert (Hin : In (EGetParsedConfirmedTransaction connection txid
                      (Fulfilled None)) (snd (scrape None)))
    by (simpl; right; left; reflexivity).
  split; [exact Hin|]. split; [left; reflexivity|].
  exact (getErrorForTransaction_without_logs
           (fulfilling customError None) connection txid
           (fst (scrape None)) (snd (scrape None)) None eq_refl Hin
           (or_introl eq_refl)).
Defined.

Import Provider ProviderFacts ProviderSamples.

Lemma emptyWorld_wellFormed : wellFormed emptyWorld.
Proof. intros a _. apply lookup_empty. Qed.

Lemma mounted_reachable :
  reachable clusterApiUrl None (fst mounted) (snd mounted).
Proof.
  apply (reach_mount clusterApiUrl None emptyWorld (fst mounted) (snd mounted)
           emptyWorld_wellFormed).
  vm_compute. reflexivity.
Qed.

(** With the checking library the provider mounts as well, and a switch
    to a string that is no URL throws in the constructor. *)
Example checked_library_refuses_a_bare_word :
  exists w f,
    mount clusterApiUrl None checkedWorld = Some (w, f) /\
    setEndpoint (str "https://api.testnet.solana.com") w f <> None /\
    setEndpoint (str "toString") w f = None.
Proof.
  do 2 eexists. split; [vm_compute; reflexivity|].
  split; [intros H; vm_compute in H; discriminate H | vm_compute; reflexivity].
Qed.

Example mounted_handles :
  connection (snd mounted) = 0 /\ sendConnection (snd mounted) = 1 /\
  endpoint (snd mounted) = str "https://api.devnet.solana.com" /\
  cfg_network (contextValue clusterApiUrl None (snd mounted)) = Some (str "devnet").
Proof. vm_compute. auto. Qed.



(** C9, counterexample.  The stored endpoint [toString] is none of the
    three cluster names, yet the exposed network identifier is not the
    default [devnet]: the lookup finds the function that every object
    inherits under that name, and its [name] is [toString]. *)
Lemma network_of_an_inherited_property :
  endpoint (snd (switchedTo (str "toString"))) = str "toString" /\
  str "toString" <> str "mainnet-beta" /\
  str "toString" <> str "testnet" /\
  str "toString" <> str "devnet" /\
  cfg_network (contextValue clusterApiUrl None
                 (snd (switchedTo (str "toString")))) = Some (str "toString") /\
  Some (str "toString") <> Some (clusterName (DEFAULT_CLUSTER None)).
Proof.
  split; [vm_compute; reflexivity|].
  repeat split; intros H; vm_compute in H; discriminate H.
Qed.

Lemma network_is_default_off_the_keys_witness :
  setEndpoint (str "http" ++ str "s://solana-api.projectserum.com/")
    (fst mounted) (snd mounted)
  = Some (switchedTo (str "https://solana-api.projectserum.com/")) /\
  cfg_network
    (contextValue clusterApiUrl (Some Testnet)
       (snd (switchedTo (str "https://solana-api.projectserum.com/"))))
  = Some (clusterName (DEFAULT_CLUSTER (Some Testnet))).
Proof.
  assert (Hset : setEndpoint (str "http" ++ str "s://solana-api.projectserum.com/")
                   (fst mounted) (snd mounted)
                 = Some (fst (switchedTo (str "https://solana-api.projectserum.com/")),
                         snd (switchedTo (str "https://solana-api.projectserum.com/"))))
    by (vm_compute; reflexivity).
  split; [vm_compute; reflexivity|].
  exact (proj2 (network_is_default_off_the_keys clusterApiUrl (Some Testnet))
               (str "s://solana-api.projectserum.com/") (fst mounted)
               (snd mounted) _ _ Hset).
Defined.

(* ===================================================================== *)
(** * Further properties of the transaction helpers *)
(* ===================================================================== *)

(** Split any run of [sendTransaction], connected wallet or not. *)
Ltac every_run H wallet instrs signers aw :=
  let w := fresh "w" in
  let Hw := fresh "Hw" in
  let fp := fresh "feePayer" in
  destruct wallet as [w|];
  [ destruct (wallet_publicKey w) as [fp|] eqn:Hw;
    [ unfold run, sendTransaction in H; rewrite Hw in H;
      run_cases H fp instrs signers aw
    | unfold run, sendTransaction, throw in H; rewrite Hw in H;
      injection H as <- <- ]
  | unfold run, sendTransaction, throw in H; injection H as <- <- ].

(** X1.  The interactions of one call of [sendTransaction] follow the
    workflow without skipping or repeating a step: the [n]-th interaction
    of every run is step [n] of fetch, sign, serialize, submit, confirm,
    confirm at [max], query the record, notify. *)
Theorem sendTransaction_follows_the_workflow
    (env : Env) (c : Connection) (wallet : option WalletAdapter)
    (instrs : list TransactionInstruction) (signers : list Account)
    (awaitConfirmation : bool) :
  let trace := snd (run (sendTransaction c wallet instrs signers
                           awaitConfirmation) env) in
  map stage trace = seq 0 (length trace).
Proof.
  cbv zeta.
  destruct (run (sendTransaction c wallet instrs signers awaitConfirmation) env)
    as [out trace] eqn:Hrun.
  every_run Hrun wallet instrs signers awaitConfirmation;
    reflexivity.
Qed.

(** X2.  [sendTransaction] does nothing after a collaborator has rejected
    or the library has thrown.  When an error that is not its own reaches
    the caller, either it is the error of the last interaction and every
    earlier one was fulfilled; or the blockhash was fetched, [setSigners]
    or else [partialSign] threw that error, and nothing was done after.
    In every other run all interactions were fulfilled. *)
Theorem sendTransaction_stops_at_the_first_rejection
    (env : Env) (c : Connection) (wallet : option WalletAdapter)
    (instrs : list TransactionInstruction) (signers : list Account)
    (awaitConfirmation : bool) :
  let r := run (sendTransaction c wallet instrs signers awaitConfirmation) env in
  match fst r with
  | Propagated e =>
      (exists last earlier,
         rev (snd r) = last :: earlier /\
         rejection last = Some e /\
         Forall (fun x => rejection x = None) earlier) \/
      (exists w feePayer recent,
         wallet = Some w /\ wallet_publicKey w = Some feePayer /\
         snd r = [EGetRecentBlockhash c Max (Fulfilled recent)] /\
         let keys := feePayer :: map publicKey signers in
         let blank := mkTransaction [] instrs (Some (blockhash recent)) in
         (lib_setSigners env keys blank = Rejects e \/
          exists slots,
            lib_setSigners env keys blank = Fulfilled slots /\
            signers <> [] /\
            lib_partialSign env signers slots = Rejects e))
  | _ => Forall (fun x => rejection x = None) (snd r)
  end.
Proof.
  cbv zeta.
  destruct (run (sendTransaction c wallet instrs signers awaitConfirmation) env)
    as [out trace] eqn:Hrun.
  every_run Hrun wallet instrs signers awaitConfirmation;
    simpl fst; simpl snd;
    try (repeat constructor; fail);
    first
      [ left; do 2 eexists; (split; [reflexivity|]);
        (split; [reflexivity|]); repeat constructor; fail
      | right; do 3 eexists; (split; [reflexivity|]);
        (split; [eassumption|]); (split; [reflexivity|]) ].
  all: match type of Hasm with
       | context [lib_setSigners ?env ?k ?b] =>
           destruct (lib_setSigners env k b) as [slots|e'] eqn:Hs
       end;
    [ right; exists slots; (split; [reflexivity|]);
      destruct signers; [discriminate Hasm|];
      (split; [discriminate | symmetry; exact Hasm])
    | left; now injection Hasm as -> ].
Qed.

(** X3.  Without [awaitConfirmation] the call never asks for a
    confirmation, never queries the record and never notifies; it makes at
    most the four interactions up to the submission, and it throws an
    error of its own only for the missing public key. *)
Theorem sendTransaction_unawaited_stops_after_submission
    (env : Env) (c : Connection) (wallet : option WalletAdapter)
    (instrs : list TransactionInstruction) (signers : list Account) :
  let r := run (sendTransaction c wallet instrs signers false) env in
  Forall (fun e => stage e < 4) (snd r) /\
  length (snd r) <= 4 /\
  match fst r with
  | Thrown e => e = notConnected /\ optionalPublicKey wallet = None
  | OutOfFuel => False
  | _ => True
  end.
Proof.
  cbv zeta.
  destruct (run (sendTransaction c wallet instrs signers false) env)
    as [out trace] eqn:Hrun.
  remember false as aw eqn:Haw in Hrun.
  every_run Hrun wallet instrs signers aw; try discriminate Haw;
    simpl; repeat split; try lia; try assumption;
    repeat (constructor; [simpl; lia|]); constructor.
Qed.

(** X4.  A notification is only ever issued after a confirmation that
    reported an error and after the record was re-queried; it is titled
    [Transaction failed...], typed [error], links the submitted
    transaction and lists exactly the errors extracted from that record;
    and a call that notified does not return. *)
Theorem sendTransaction_notifies_the_extracted_errors
    (env : Env) (c : Connection) (wallet : option WalletAdapter)
    (instrs : list TransactionInstruction) (signers : list Account)
    (awaitConfirmation : bool) (out : outcome jsstring) (trace : list event)
    (n : Notification) (answer : settled unit) :
  run (sendTransaction c wallet instrs signers awaitConfirmation) env =
    (out, trace) ->
  In (ENotify n answer) trace ->
  exists raw txid response tx,
    awaitConfirmation = true /\
    In (ESendRawTransaction c raw options (Fulfilled txid)) trace /\
    In (EConfirmTransaction c txid SingleGossip (Fulfilled response)) trace /\
    status_err (Web3.value response) = true /\
    In (EGetParsedConfirmedTransaction c txid (Fulfilled tx)) trace /\
    n = mkNotification (str "Transaction failed...") (errorsOfRecord tx) txid
                       (str "error") /\
    (forall v, out <> Returned v).
Proof.
  intros Hrun Hin.
  every_run Hrun wallet instrs signers awaitConfirmation; in_trace;
    do 4 eexists; (split; [reflexivity|]);
    (split; [simpl; eauto 10|]); (split; [simpl; eauto 10|]);
    (split; [eassumption|]); (split; [simpl; eauto 10|]);
    (split; [reflexivity | intros v; discriminate]).
Qed.

(** X5.  Whatever is submitted is submitted on the connection given, with
    preflight skipped and commitment [singleGossip], and it is the
    serialization of the transaction that the wallet returned from
    signing. *)
Theorem sendTransaction_submits_the_signed_serialization
    (env : Env) (c : Connection) (wallet : option WalletAdapter)
    (instrs : list TransactionInstruction) (signers : list Account)
    (awaitConfirmation : bool) (out : outcome jsstring) (trace : list event)
    (c' : Connection) (raw : list N) (o : SendOptions) (answer : settled jsstring) :
  run (sendTransaction c wallet instrs signers awaitConfirmation) env =
    (out, trace) ->
  In (ESendRawTransaction c' raw o answer) trace ->
  c' = c /\ skipPreflight o = true /\ commitment o = SingleGossip /\
  exists w t signed,
    wallet = Some w /\
    In (ESignTransaction w t (Fulfilled signed)) trace /\
    In (ESerialize signed (Fulfilled raw)) trace.
Proof.
  intros Hrun Hin.
  every_run Hrun wallet instrs signers awaitConfirmation; in_trace;
    repeat split; do 3 eexists;
    (split; [reflexivity|]); split; simpl; eauto 10.
Qed.

(** X6.  With no additional signers [partialSign] is not called: what
    the wallet is handed is the transaction that [setSigners] returned
    for the fee payer's key alone, and once the blockhash is fetched and
    [setSigners] has returned, the wallet is handed it, whatever
    [partialSign] would have done with an empty list. *)
Theorem sendTransaction_without_signers_hands_over_unsigned
    (env : Env) (c : Connection) (w : WalletAdapter) (feePayer : PublicKey)
    (instrs : list TransactionInstruction) (awaitConfirmation : bool)
    (out : outcome jsstring) (trace : list event) :
  wallet_publicKey w = Some feePayer ->
  run (sendTransaction c (Some w) instrs [] awaitConfirmation) env =
    (out, trace) ->
  (forall w' t answer,
     In (ESignTransaction w' t answer) trace ->
     w' = w /\
     exists recent,
       In (EGetRecentBlockhash c Max (Fulfilled recent)) trace /\
       lib_setSigners env [feePayer]
         (mkTransaction [] instrs (Some (blockhash recent))) = Fulfilled t) /\
  (forall recent slots,
     In (EGetRecentBlockhash c Max (Fulfilled recent)) trace ->
     lib_setSigners env [feePayer]
       (mkTransaction [] instrs (Some (blockhash recent))) = Fulfilled slots ->
     exists answer, In (ESignTransaction w slots answer) trace).
Proof.
  intros Hw Hrun.
  unfold run, sendTransaction in Hrun. rewrite Hw in Hrun.
  run_cases Hrun feePayer instrs (@nil Account) awaitConfirmation;
    try (simpl in Hasm); split.
  all: try (intros w' t' answer Hin; in_trace;
            (split; [reflexivity|]); eexists;
            (split; [simpl; left; reflexivity|]);
            destruct (lib_setSigners env _ _); congruence).
  all: intros recent' slots Hin Hslots; in_trace;
    rewrite Hslots in Hasm;
    first [ discriminate Hasm
          | injection Hasm as <-; eexists; simpl; right; left; reflexivity ].
Qed.

(** X7.  A call that returns has not scraped the logs: its interactions
    end with the submission or with the one confirmation at
    [singleGossip], whose status reported no error. *)
Theorem sendTransaction_returns_without_scraping
    (env : Env) (c : Connection) (wallet : option WalletAdapter)
    (instrs : list TransactionInstruction) (signers : list Account)
    (awaitConfirmation : bool) (txid : jsstring) (trace : list event) :
  run (sendTransaction c wallet instrs signers awaitConfirmation) env =
    (Returned txid, trace) ->
  Forall (fun e => stage e < 5) trace /\
  forall c' txid' cm response,
    In (EConfirmTransaction c' txid' cm (Fulfilled response)) trace ->
    status_err (Web3.value response) = false.
Proof.
  intros Hrun.
  remember (Returned txid) as out eqn:Hout.
  every_run Hrun wallet instrs signers awaitConfirmation;
    try discriminate Hout;
    (split;
     [ repeat (constructor; [simpl; lia|]); constructor
     | intros c' txid' cm response Hin; in_trace; assumption ]).
Qed.

Lemma sendTransaction_notifies_the_extracted_errors_witness :
  failedStake = (fst failedStake, snd failedStake) /\
  In (ENotify failedStakeNote (Fulfilled tt)) (snd failedStake) /\
  exists raw txid response tx,
    true = true /\
    In (ESendRawTransaction Samples.connection raw options (Fulfilled txid))
       (snd failedStake) /\
    In (EConfirmTransaction Samples.connection txid SingleGossip (Fulfilled response))
       (snd failedStake) /\
    status_err (Web3.value response) = true /\
    In (EGetParsedConfirmedTransaction Samples.connection txid (Fulfilled tx))
       (snd failedStake) /\
    failedStakeNote =
      mkNotification (str "Transaction failed...") (errorsOfRecord tx) txid
                     (str "error") /\
    (forall v, fst failedStake <> Returned v).
Proof.
  split; [reflexivity|]. split; [exact Runs.failedStake_notification|].
  exact (sendTransaction_notifies_the_extracted_errors
           (fulfilling customError (withLogs stakeLogs)) Samples.connection
           (Some wallet) [transfer] [alice] true (fst failedStake)
           (snd failedStake) failedStakeNote (Fulfilled tt) eq_refl
           Runs.failedStake_notification).
Defined.

Lemma sendTransaction_submits_the_signed_serialization_witness :
  confirmedStake = (fst confirmedStake, snd confirmedStake) /\
  In (ESendRawTransaction Samples.connection [1; 0; 1; 3]%N options (Fulfilled txid))
     (snd confirmedStake) /\
  Samples.connection = Samples.connection /\ skipPreflight options = true /\
  commitment options = SingleGossip /\
  exists w t signed,
    Some wallet = Some w /\
    In (ESignTransaction w t (Fulfilled signed)) (snd confirmedStake) /\
    In (ESerialize signed (Fulfilled [1; 0; 1; 3]%N)) (snd confirmedStake).
Proof.
  assert (Hin : In (ESendRawTransaction Samples.connection [1; 0; 1; 3]%N options
                      (Fulfilled txid)) (snd confirmedStake))
    by (simpl; intuition).
  split; [reflexivity|]. split; [exact Hin|].
  exact (sendTransaction_submits_the_signed_serialization
           (fulfilling succeeded (withLogs [])) Samples.connection (Some wallet)
           [transfer] [alice] true (fst confirmedStake)
           (snd confirmedStake) Samples.connection [1; 0; 1; 3]%N options
           (Fulfilled txid) eq_refl Hin).
Defined.

Lemma sendTransaction_without_signers_hands_over_unsigned_witness :
  wallet_publicKey wallet = Some feePayer /\
  soloStake = (fst soloStake, snd soloStake) /\
  (forall slots, partialSign [] slots = Rejects (mkError (str "No signers"))) /\
  (forall w' t answer,
     In (ESignTransaction w' t answer) (snd soloStake) ->
     w' = wallet /\
     exists recent,
       In (EGetRecentBlockhash Samples.connection Max (Fulfilled recent))
          (snd soloStake) /\
       setSigners [feePayer]
         (mkTransaction [] [deposit] (Some (blockhash recent))) = Fulfilled t) /\
  (forall recent slots,
     In (EGetRecentBlockhash Samples.connection Max (Fulfilled recent))
        (snd soloStake) ->
     setSigners [feePayer]
       (mkTransaction [] [deposit] (Some (blockhash recent))) = Fulfilled slots ->
     exists answer, In (ESignTransaction wallet slots answer) (snd soloStake)).
Proof.
  split; [reflexivity|]. split; [reflexivity|]. split; [reflexivity|].
  exact (sendTransaction_without_signers_hands_over_unsigned
           (fulfilling succeeded (withLogs [])) Samples.connection wallet
           feePayer [deposit] false (fst soloStake) (snd soloStake)
           eq_refl eq_refl).
Defined.

Lemma sendTransaction_returns_without_scraping_witness :
  confirmedStake = (Returned txid, snd confirmedStake) /\
  Forall (fun e => stage e < 5) (snd confirmedStake) /\
  forall c' txid' cm response,
    In (EConfirmTransaction c' txid' cm (Fulfilled response))
       (snd confirmedStake) ->
    status_err (Web3.value response) = false.
Proof.
  split; [reflexivity|].
  exact (sendTransaction_returns_without_scraping
           (fulfilling succeeded (withLogs [])) Samples.connection (Some wallet)
           [transfer] [alice] true txid (snd confirmedStake) eq_refl).
Defined.

(** X8.  [getErrorForTransaction] first waits for the confirmation at
    [max] and only then queries the record; it does nothing else.  A
    rejection of either call reaches the caller as it is, and the query
    is not made when the wait was rejected; otherwise the function
    returns, and it never throws an error of its own. *)
Theorem getErrorForTransaction_protocol
    (env : Env) (c : Connection) (txid : jsstring) :
  let r := run (getErrorForTransaction c txid) env in
  (exists e,
     r = (Propagated e, [EConfirmTransaction c txid Max (Rejects e)])) \/
  (exists status e,
     r = (Propagated e,
          [EConfirmTransaction c txid Max (Fulfilled status);
           EGetParsedConfirmedTransaction c txid (Rejects e)])) \/
  (exists status tx,
     r = (Returned (errorsOfRecord tx),
          [EConfirmTransaction c txid Max (Fulfilled status);
           EGetParsedConfirmedTransaction c txid (Fulfilled tx)])).
Proof.
  cbv zeta. unfold run. rewrite getErrorForTransaction_run. cbv zeta.
  simpl app.
  destruct (rpc_confirmTransaction env [] c txid Max) as [status|e];
    [|left; eauto].
  destruct (rpc_getParsedConfirmedTransaction env _ c txid) as [tx|e];
    right; [right|left]; eauto.
Qed.

(* ===================================================================== *)
(** * Further properties of the log scrape *)
(* ===================================================================== *)

Module ScanCounts.
Import RegExp Scan ScanFacts.

Lemma occurrences_cons (c : N) (s : jsstring) (i : nat) :
  occurrences (c :: s) i =
    match stripPrefix ERROR_LITERAL (c :: s) with
    | Some _ => i :: occurrences s (S i)
    | None => occurrences s (S i)
    end.
Proof. reflexivity. Qed.

Lemma occurrences_length_index (s : jsstring) (i j : nat) :
  length (occurrences s i) = length (occurrences s j).
Proof.
  revert i j; induction s as [|c s IH]; intros i j; [reflexivity|].
  rewrite !occurrences_cons.
  destruct (stripPrefix ERROR_LITERAL (c :: s)); simpl;
    [f_equal|]; apply IH.
Qed.

Lemma occurrences_tail (c : N) (s : jsstring) (i j : nat) :
  length (occurrences s j) <= length (occurrences (c :: s) i).
Proof.
  rewrite occurrences_cons.
  pose proof (occurrences_length_index s j (S i)) as H.
  destruct (stripPrefix ERROR_LITERAL (c :: s)); simpl; lia.
Qed.

(** A suffix holds no more occurrences than the whole. *)
Lemma occurrences_drop (m : nat) (s : jsstring) (i j : nat) :
  length (occurrences (drop m s) j) <= length (occurrences s i).
Proof.
  revert s i j; induction m as [|m IH]; intros s i j.
  - rewrite drop_0, (occurrences_length_index s j i). lia.
  - destruct s as [|c s]; [simpl; lia|].
    change (drop (S m) (c :: s)) with (drop m s).
    etransitivity; [apply (IH s (S i) j) | apply occurrences_tail].
Qed.

(** Entries against occurrences, for every suffix of a message. *)
Lemma errorsOfLog_occurrences (n : nat) (u : jsstring) (i : nat) :
  length u <= n ->
  length (errorsOfLog u) <= length (occurrences u i) /\
  (errorsOfLog u = [] <-> occurrences u i = []).
Proof.
  revert u i; induction n as [|n IH]; intros u i Hn.
  - destruct u; [|simpl in Hn; lia]. split; [simpl; lia | split; reflexivity].
  - destruct (stripPrefix ERROR_LITERAL u) as [rest|] eqn:E.
    + rewrite (errorsOfLog_take _ _ E).
      pose proof E as Hu. apply stripPrefix_Some in Hu.
      destruct u as [|c u]; [discriminate Hu|].
      rewrite occurrences_cons, E.
      split; [|split; discriminate].
      simpl. apply le_n_S.
      assert (Hsuffix : drop (length (dotStar rest)) rest
                        = drop (6 + length (dotStar rest)) u).
      { injection Hu as _ ->. simpl. reflexivity. }
      rewrite Hsuffix.
      destruct (IH (drop (6 + length (dotStar rest)) u) 0) as [Hle _].
      { rewrite length_drop. simpl in Hn. lia. }
      etransitivity; [exact Hle | apply occurrences_drop].
    + destruct u as [|c u]; [split; [simpl; lia | split; reflexivity]|].
      rewrite (errorsOfLog_skip _ _ E).
      rewrite occurrences_cons, E.
      apply IH. simpl in Hn. lia.
Qed.

(** Every entry is the greedy run after some [Error: ]. *)
Lemma errorsOfLog_Forall (Q : jsstring -> Prop) (n : nat) (u : jsstring) :
  (forall rest, Q (dotStar rest)) ->
  length u <= n -> Forall Q (errorsOfLog u).
Proof.
  intros HQ. revert u; induction n as [|n IH]; intros u Hn.
  - destruct u; [constructor | simpl in Hn; lia].
  - destruct (stripPrefix ERROR_LITERAL u) as [rest|] eqn:E.
    + rewrite (errorsOfLog_take _ _ E). constructor; [apply HQ|].
      apply IH. apply stripPrefix_Some in E. subst u.
      rewrite length_drop. rewrite length_app in Hn. simpl in Hn. lia.
    + destruct u as [|c u]; [constructor|].
      rewrite (errorsOfLog_skip _ _ E). apply IH. simpl in Hn. lia.
Qed.

Lemma errorsOfLogs_app (a b : list jsstring) :
  errorsOfLogs (a ++ b) = errorsOfLogs a ++ errorsOfLogs b.
Proof. unfold errorsOfLogs. now rewrite map_app, concat_app. Qed.

End ScanCounts.

(** X9.  The messages of a record are scraped one by one, each from its
    start: what a list of messages yields is what its first part yields
    followed by what the rest yields, appended to what was collected
    before, which is kept as it is. *)
Theorem scanLogs_is_per_message
    (before after : list jsstring) (errors : list jsstring) :
  exists xs ys,
    Scan.scanLogs before [] = Some xs /\
    Scan.scanLogs after [] = Some ys /\
    Scan.scanLogs (before ++ after) errors = Some (errors ++ xs ++ ys).
Proof.
  exists (Scan.errorsOfLogs before), (Scan.errorsOfLogs after).
  rewrite !ScanFacts.scanLogs_spec, ScanCounts.errorsOfLogs_app.
  auto.
Qed.

(** X10.  For one log message the scrape yields no more entries than the
    message has occurrences of [Error: ], and it yields none exactly when
    the message has none. *)
Theorem scanLog_entries_against_occurrences (log : jsstring) :
  exists errors,
    Scan.scanLog log [] = Some errors /\
    length errors <= length (Scan.occurrences log 0) /\
    (errors = [] <-> Scan.occurrences log 0 = []).
Proof.
  exists (Scan.errorsOfLog log).
  rewrite ScanFacts.scanLog_spec. split; [reflexivity|].
  apply (ScanCounts.errorsOfLog_occurrences (length log)). lia.
Qed.

(** X11.  No extracted error contains a line terminator. *)
Theorem scanLogs_entries_are_single_lines (logs : list jsstring) :
  exists errors,
    Scan.scanLogs logs [] = Some errors /\
    Forall (Forall (fun c => isLineTerminator c = false)) errors.
Proof.
  exists (Scan.errorsOfLogs logs).
  rewrite ScanFacts.scanLogs_spec. split; [reflexivity|].
  unfold Scan.errorsOfLogs.
  induction logs as [|log logs IH]; simpl; [constructor|].
  apply Forall_app. split; [|exact IH].
  apply (ScanCounts.errorsOfLog_Forall _ (length log)); [|lia].
  apply dotStar_no_terminator.
Qed.

(** X12.  The loop of lines 132-141 ends for every pattern whose matches
    do not end before they start, empty matches included: started at any
    [lastIndex], it returns within one iteration more than the
    [length log + 1 - lastIndex] positions that are left. *)
Theorem scanLoop_terminates_for_every_pattern
    (rx : RegExp.matcher) (log : jsstring) (lastIndex : nat)
    (errors : list jsstring) (extra : nat) :
  (forall s i e caps, rx s i = Some (e, caps) -> i <= e) ->
  exists result,
    Scan.scanLoop rx (S (S (length log) - lastIndex) + extra) log lastIndex errors
    = Some result.
Proof.
  intros Hrx. apply ScanFacts.scanLoop_terminates; [exact Hrx | lia].
Qed.

Lemma scanLoop_terminates_for_every_pattern_witness :
  (forall s i e caps, RegExp.emptyRegex s i = Some (e, caps) -> i <= e) /\
  exists result,
    Scan.scanLoop RegExp.emptyRegex (S (S (length (str "abc")) - 1) + 0)
      (str "abc") 1 [] = Some result.
Proof.
  split; [exact ScanFacts.emptyRegex_forward|].
  exact (scanLoop_terminates_for_every_pattern RegExp.emptyRegex (str "abc") 1
           [] 0 ScanFacts.emptyRegex_forward).
Defined.

(* ===================================================================== *)
(** * Further properties of the provider *)
(* ===================================================================== *)

Module ProviderSteps.
Import Web3 Provider ProviderFacts.

#[local] Arguments useMemo : simpl never.
#[local] Arguments commitCleanup : simpl never.
#[local] Arguments commitEffect : simpl never.
#[local] Arguments mountEffect : simpl never.
#[local] Arguments subscribe : simpl never.
#[local] Arguments unsubscribe : simpl never.

Lemma rerender_untouched (w : World) (f : Fiber) :
  consistent w f ->
  exists f', rerender w f = Some (w, f') /\ untouched w f w f' /\
             slippage f' = slippage f.
Proof.
  intros (Hwf & Hne & Hd1 & Hd2 & Hk1 & Hk2).
  rewrite rerender_stable; try assumption; try apply Hk1; try apply Hk2.
  eexists. split; [reflexivity|]. repeat split.
Qed.

Lemma setSlippageText_untouched (w : World) (f : Fiber) (text : jsstring) :
  consistent w f ->
  exists w' f', setSlippageText text w f = Some (w', f') /\
                untouched w f w' f' /\ slippage f' = text.
Proof.
  intros (Hwf & Hne & Hd1 & Hd2 & Hk1 & Hk2).
  unfold setSlippageText. rewrite rerender_stable; simpl;
    try assumption; try apply Hk1; try apply Hk2.
  eexists _, _. split; [reflexivity|]. repeat split.
Qed.

Lemma setEndpoint_same_untouched (w : World) (f : Fiber) :
  consistent w f ->
  exists w' f', setEndpoint (endpoint f) w f = Some (w', f') /\
                untouched w f w' f'.
Proof.
  intros (Hwf & Hne & Hd1 & Hd2 & Hk1 & Hk2).
  unfold setEndpoint. rewrite rerender_stable; simpl;
    try assumption; try apply Hk1; try apply Hk2.
  eexists _, _. split; [reflexivity|]. repeat split.
Qed.

(** A switch changes the two replaced objects and creates two; every
    other object stays as it was, and the replaced ones keep their
    endpoint. *)
Lemma setEndpoint_switch_frame (w : World) (f : Fiber) (val : jsstring) :
  consistent w f -> val <> endpoint f ->
  constructs (web3 w) val = true -> subscribes (web3 w) val = true ->
  exists w' f',
    setEndpoint val w f = Some (w', f') /\
    connection f' = nextAddress w /\
    sendConnection f' = S (nextAddress w) /\
    (forall a, a <> connection f -> a <> sendConnection f ->
               a <> nextAddress w -> a <> S (nextAddress w) ->
               heap w' !! a = heap w !! a) /\
    endpointAt w' (connection f) = endpointAt w (connection f) /\
    endpointAt w' (sendConnection f) = endpointAt w (sendConnection f).
Proof.
  intros (Hwf & Hne & Hd1 & Hd2 & (Ha1 & Hs1 & k1 & Hsub1)
                               & (Ha2 & Hs2 & k2 & Hsub2)) Hval Hnew Hws.
  apply subscriptionsAt_Some in Hsub1 as (o1 & Ho1 & Hacc1 & Hslot1).
  apply subscriptionsAt_Some in Hsub2 as (o2 & Ho2 & Hacc2 & Hslot2).
  pose proof (allocated _ _ _ Hwf Ho1) as Hlt1.
  pose proof (allocated _ _ _ Hwf Ho2) as Hlt2.
  destruct f as [ep sl cd c sd sc [d1 l1] [d2 l2] [d3 l3] [d4 l4]].
  destruct o1 as [r1 cm1 as1 ac1 ss1 sc1], o2 as [r2 cm2 as2 ac2 ss2 sc2].
  simpl in *. subst.
  unfold setEndpoint, rerender. simpl.
  rewrite useMemo_changed by congruence.
  rewrite newConnection_accepted by (simpl; assumption). simpl.
  rewrite useMemo_changed by congruence.
  rewrite newConnection_accepted by (simpl; assumption). simpl.
  commit_steps.
  eexists _, _. split; [reflexivity|]. simpl.
  split; [reflexivity|]. split; [reflexivity|].
  split; [|split; unfold endpointAt; simpl;
             repeat first [ rewrite lookup_insert_eq
                          | rewrite lookup_insert_ne by (congruence || lia) ];
             simpl; [rewrite Ho1 | rewrite Ho2]; reflexivity].
  intros a H1 H2 H3 H4. now rewrite !lookup_insert_ne by congruence.
Qed.

(** *** Unmounting *)

Lemma unmount_cancels (w : World) (f : Fiber) :
  consistent w f ->
  exists w',
    unmount w f = Some w' /\
    subscriptionsAt w' (connection f) = Some (∅, ∅) /\
    subscriptionsAt w' (sendConnection f) = Some (∅, ∅) /\
    (forall a, a <> connection f -> a <> sendConnection f ->
               heap w' !! a = heap w !! a) /\
    endpointAt w' (connection f) = endpointAt w (connection f) /\
    endpointAt w' (sendConnection f) = endpointAt w (sendConnection f).
Proof.
  intros (Hwf & Hne & Hd1 & Hd2 & (Ha1 & Hs1 & k1 & Hsub1)
                               & (Ha2 & Hs2 & k2 & Hsub2)).
  apply subscriptionsAt_Some in Hsub1 as (o1 & Ho1 & Hacc1 & Hslot1).
  apply subscriptionsAt_Some in Hsub2 as (o2 & Ho2 & Hacc2 & Hslot2).
  destruct f as [ep sl cd c sd sc [d1 l1] [d2 l2] [d3 l3] [d4 l4]].
  destruct o1 as [r1 cm1 as1 ac1 ss1 sc1], o2 as [r2 cm2 as2 ac2 ss2 sc2].
  simpl in *. subst.
  unfold unmount. simpl.
  erewrite unsubscribe_account by heap_lookup. simpl.
  erewrite unsubscribe_slot by heap_lookup. simpl.
  erewrite unsubscribe_account by heap_lookup. simpl.
  erewrite unsubscribe_slot by heap_lookup.
  eexists. split; [reflexivity|].
  split; [tables|]. split; [tables|].
  split; [intros a H1 H2; simpl; now rewrite !lookup_insert_ne by congruence|].
  split; unfold endpointAt; simpl;
    repeat first [ rewrite lookup_insert_eq
                 | rewrite lookup_insert_ne by (congruence || lia) ];
    simpl; [rewrite Ho1 | rewrite Ho2]; reflexivity.
Qed.

(** *** The connections talk to the exposed endpoint *)

Lemma mount_pointsAtEndpoint (api : Cluster -> jsstring)
    (envCluster : option Cluster) (w w' : World) (f : Fiber) :
  mount api envCluster w = Some (w', f) -> pointsAtEndpoint w' f.
Proof.
  unfold mount. cbv zeta.
  set (e := useLocalStorage_initial KEY_ENDPOINT _ w).
  destruct (constructs (web3 w) e) eqn:Hnew;
    [| now rewrite newConnection_refused].
  rewrite newConnection_accepted by assumption. simpl.
  rewrite newConnection_accepted by (simpl; assumption). simpl.
  unfold mountEffect.
  destruct (subscribes (web3 w) e) eqn:Hws;
    [| now erewrite subscribe_refused by heap_lookup].
  erewrite subscribe_account by heap_lookup. simpl.
  erewrite subscribe_slot by heap_lookup. simpl.
  erewrite subscribe_account by heap_lookup. simpl.
  erewrite subscribe_slot by heap_lookup. simpl.
  intros [= <- <-]. split; tables.
Qed.

Lemma untouched_pointsAtEndpoint (w : World) (f : Fiber) (w' : World)
    (f' : Fiber) :
  untouched w f w' f' -> pointsAtEndpoint w f -> pointsAtEndpoint w' f'.
Proof.
  intros (Hh & _ & Hc & Hsc & He) [H1 H2].
  unfold pointsAtEndpoint, endpointAt in *.
  now rewrite Hh, Hc, Hsc, He.
Qed.

Lemma reachable_pointsAtEndpoint (api : Cluster -> jsstring)
    (envCluster : option Cluster) (w : World) (f : Fiber) :
  reachable api envCluster w f -> pointsAtEndpoint w f.
Proof.
  induction 1 as [w w' f Hwf Hm | val w f w' f' Hr IH Hs
                 | text w f w' f' Hr IH Hs | w f w' f' Hr IH Hs].
  - eapply mount_pointsAtEndpoint; eassumption.
  - apply reachable_consistent in Hr.
    destruct (decide (val = endpoint f)) as [->|Hne].
    + destruct (setEndpoint_same_untouched w f Hr) as (w1 & f1 & E & Hu).
      rewrite E in Hs. injection Hs as <- <-.
      eapply untouched_pointsAtEndpoint; eassumption.
    + destruct (accepts w val) eqn:Hacc;
        [| now rewrite (setEndpoint_refused w f val Hr Hne Hacc) in Hs].
      apply andb_prop in Hacc as [Hnew Hws].
      destruct (setEndpoint_switch w f val Hr Hne Hnew Hws)
        as (w1 & f1 & E & (_ & _ & He) & (H1 & H2) & _).
      rewrite E in Hs. injection Hs as <- <-.
      split; now rewrite He.
  - apply reachable_consistent in Hr.
    destruct (setSlippageText_untouched w f text Hr) as (w1 & f1 & E & Hu & _).
    rewrite E in Hs. injection Hs as <- <-.
    eapply untouched_pointsAtEndpoint; eassumption.
  - apply reachable_consistent in Hr.
    destruct (rerender_untouched w f Hr) as (f1 & E & Hu & _).
    rewrite E in Hs. injection Hs as <- <-.
    eapply untouched_pointsAtEndpoint; eassumption.
Qed.

(** Mounting with an endpoint that the library takes ... *)
Lemma mount_runs (api : Cluster -> jsstring) (envCluster : option Cluster)
    (w : World) :
  let initial :=
    useLocalStorage_initial KEY_ENDPOINT
      (endpointUrl (DEFAULT_ENDPOINT api envCluster)) w in
  constructs (web3 w) initial = true -> subscribes (web3 w) initial = true ->
  exists w' f,
    mount api envCluster w = Some (w', f) /\
    connection f = nextAddress w /\
    sendConnection f = S (nextAddress w) /\
    nextAddress w' = S (S (nextAddress w)) /\
    (forall a, a <> nextAddress w -> a <> S (nextAddress w) ->
               heap w' !! a = heap w !! a).
Proof.
  cbv zeta. intros Hnew Hws. unfold mount. cbv zeta.
  rewrite newConnection_accepted by assumption. simpl.
  rewrite newConnection_accepted by (simpl; assumption). simpl.
  unfold mountEffect.
  erewrite subscribe_account by heap_lookup. simpl.
  erewrite subscribe_slot by heap_lookup. simpl.
  erewrite subscribe_account by heap_lookup. simpl.
  erewrite subscribe_slot by heap_lookup. simpl.
  eexists _, _. split; [reflexivity|]. simpl. repeat split.
  intros a H1 H2. now rewrite !lookup_insert_ne by congruence.
Qed.

(** ... and with one that it refuses. *)
Lemma mount_refused (api : Cluster -> jsstring) (envCluster : option Cluster)
    (w : World) :
  let initial :=
    useLocalStorage_initial KEY_ENDPOINT
      (endpointUrl (DEFAULT_ENDPOINT api envCluster)) w in
  accepts w initial = false -> mount api envCluster w = None.
Proof.
  cbv zeta. unfold accepts. intros Hacc. unfold mount. cbv zeta.
  destruct (constructs (web3 w) _) eqn:Hnew;
    [| now rewrite newConnection_refused].
  simpl in Hacc.
  rewrite newConnection_accepted by assumption. simpl.
  rewrite newConnection_accepted by (simpl; assumption). simpl.
  unfold mountEffect.
  now erewrite subscribe_refused by heap_lookup.
Qed.

Lemma ENDPOINTS_own (api : Cluster -> jsstring) (c : Cluster) :
  ENDPOINTS api !! clusterName c = Some (endpointOf api c).
Proof.
  unfold ENDPOINTS. simpl list_to_map.
  destruct c.
  - apply lookup_insert_eq.
  - rewrite lookup_insert_ne
      by (intros H; vm_compute in H; discriminate H).
    apply lookup_insert_eq.
  - rewrite !lookup_insert_ne
      by (intros H; vm_compute in H; discriminate H).
    apply lookup_insert_eq.
Qed.

End ProviderSteps.

(** X13.  The keep-alive of lines 69-98 holds between any two renders of
    a mounted provider: the two connections are distinct objects and each
    carries exactly one account-change listener and exactly one
    slot-change listener, both no-ops, so neither subscription list is
    ever empty. *)
Theorem provider_keeps_both_connections_subscribed
    (api : Cluster -> jsstring) (envCluster : option Cluster)
    (w : World) (f : Fiber) :
  reachable api envCluster w f ->
  connection f <> sendConnection f /\
  (exists id key id',
     subscriptionsAt w (connection f) =
       Some ({[ id := mkAccountSub key NoOp ]}, {[ id' := NoOp ]})) /\
  (exists id key id',
     subscriptionsAt w (sendConnection f) =
       Some ({[ id := mkAccountSub key NoOp ]}, {[ id' := NoOp ]})).
Proof.
  intros Hr. apply reachable_consistent in Hr.
  destruct Hr as (_ & Hne & _ & _ & (_ & _ & k1 & H1) & (_ & _ & k2 & H2)).
  eauto 10.
Qed.

Lemma provider_keeps_both_connections_subscribed_witness :
  reachable clusterApiUrl None (fst mounted) (snd mounted) /\
  connection (snd mounted) <> sendConnection (snd mounted) /\
  (exists id key id',
     subscriptionsAt (fst mounted) (connection (snd mounted)) =
       Some ({[ id := mkAccountSub key NoOp ]}, {[ id' := NoOp ]})) /\
  (exists id key id',
     subscriptionsAt (fst mounted) (sendConnection (snd mounted)) =
       Some ({[ id := mkAccountSub key NoOp ]}, {[ id' := NoOp ]})).
Proof.
  split; [exact mounted_reachable|].
  exact (provider_keeps_both_connections_subscribed clusterApiUrl None
           (fst mounted) (snd mounted) mounted_reachable).
Defined.

(** X14.  Setting the slippage re-renders the provider without touching
    the connections: the same two objects stay in place, no object is
    created, no listener is added or removed, and the endpoint stays; the
    exposed slippage text is the one set. *)
Theorem setSlippage_keeps_the_connections
    (api : Cluster -> jsstring) (envCluster : option Cluster)
    (w : World) (f : Fiber) (text : jsstring) :
  reachable api envCluster w f ->
  exists w' f',
    setSlippageText text w f = Some (w', f') /\
    heap w' = heap w /\ nextAddress w' = nextAddress w /\
    cfg_connection (contextValue api envCluster f') = connection f /\
    cfg_sendConnection (contextValue api envCluster f') = sendConnection f /\
    cfg_endpointUrl (contextValue api envCluster f') = endpoint f /\
    cfg_slippageText (contextValue api envCluster f') = text.
Proof.
  intros Hr. apply reachable_consistent in Hr.
  destruct (ProviderSteps.setSlippageText_untouched w f text Hr)
    as (w' & f' & E & (Hh & Hn & Hc & Hsc & He) & Hs).
  exists w', f'. simpl. auto 10.
Qed.

Lemma setSlippage_keeps_the_connections_witness :
  reachable clusterApiUrl None (fst mounted) (snd mounted) /\
  exists w' f',
    setSlippageText (str "0.5") (fst mounted) (snd mounted) = Some (w', f') /\
    heap w' = heap (fst mounted) /\
    nextAddress w' = nextAddress (fst mounted) /\
    cfg_connection (contextValue clusterApiUrl None f') =
      connection (snd mounted) /\
    cfg_sendConnection (contextValue clusterApiUrl None f') =
      sendConnection (snd mounted) /\
    cfg_endpointUrl (contextValue clusterApiUrl None f') =
      endpoint (snd mounted) /\
    cfg_slippageText (contextValue clusterApiUrl None f') = str "0.5".
Proof.
  split; [exact mounted_reachable|].
  exact (setSlippage_keeps_the_connections clusterApiUrl None (fst mounted)
           (snd mounted) (str "0.5") mounted_reachable).
Defined.

(** X15.  Selecting the endpoint that is already selected does not
    reconnect: the same two objects stay in place with their listeners,
    and no object is created. *)
Theorem setEndpoint_same_value_keeps_the_connections
    (api : Cluster -> jsstring) (envCluster : option Cluster)
    (w : World) (f : Fiber) :
  reachable api envCluster w f ->
  exists w' f',
    setEndpoint (endpoint f) w f = Some (w', f') /\
    heap w' = heap w /\ nextAddress w' = nextAddress w /\
    connection f' = connection f /\ sendConnection f' = sendConnection f /\
    endpoint f' = endpoint f.
Proof.
  intros Hr. apply reachable_consistent in Hr.
  destruct (ProviderSteps.setEndpoint_same_untouched w f Hr)
    as (w' & f' & E & (Hh & Hn & Hc & Hsc & He)).
  exists w', f'. auto 10.
Qed.

Lemma setEndpoint_same_value_keeps_the_connections_witness :
  reachable clusterApiUrl None (fst mounted) (snd mounted) /\
  exists w' f',
    setEndpoint (endpoint (snd mounted)) (fst mounted) (snd mounted)
      = Some (w', f') /\
    heap w' = heap (fst mounted) /\
    nextAddress w' = nextAddress (fst mounted) /\
    connection f' = connection (snd mounted) /\
    sendConnection f' = sendConnection (snd mounted) /\
    endpoint f' = endpoint (snd mounted).
Proof.
  split; [exact mounted_reachable|].
  exact (setEndpoint_same_value_keeps_the_connections clusterApiUrl None
           (fst mounted) (snd mounted) mounted_reachable).
Defined.

(** X16.  Unmounting a mounted provider never fails on an unknown
    listener id and removes all four keep-alive listeners: both
    connections end with empty subscription tables, and no other object
    is touched. *)
Theorem unmount_cancels_every_listener
    (api : Cluster -> jsstring) (envCluster : option Cluster)
    (w : World) (f : Fiber) :
  reachable api envCluster w f ->
  exists w',
    unmount w f = Some w' /\
    subscriptionsAt w' (connection f) = Some (∅, ∅) /\
    subscriptionsAt w' (sendConnection f) = Some (∅, ∅) /\
    (forall a, a <> connection f -> a <> sendConnection f ->
               heap w' !! a = heap w !! a).
Proof.
  intros Hr. apply reachable_consistent in Hr.
  destruct (ProviderSteps.unmount_cancels w f Hr)
    as (w' & E & H1 & H2 & H3 & _).
  exists w'. auto.
Qed.

Lemma unmount_cancels_every_listener_witness :
  reachable clusterApiUrl None (fst mounted) (snd mounted) /\
  exists w',
    unmount (fst mounted) (snd mounted) = Some w' /\
    subscriptionsAt w' (connection (snd mounted)) = Some (∅, ∅) /\
    subscriptionsAt w' (sendConnection (snd mounted)) = Some (∅, ∅) /\
    (forall a, a <> connection (snd mounted) ->
               a <> sendConnection (snd mounted) ->
               heap w' !! a = heap (fst mounted) !! a).
Proof.
  split; [exact mounted_reachable|].
  exact (unmount_cancels_every_listener clusterApiUrl None (fst mounted)
           (snd mounted) mounted_reachable).
Defined.

(** X17.  A switch of endpoint that goes through touches four objects
    only, the two replaced and the two created: every other Connection
    object is left as it was, and the replaced objects still name the
    endpoint they were created for. *)
Theorem setEndpoint_leaves_other_objects_alone
    (api : Cluster -> jsstring) (envCluster : option Cluster)
    (w : World) (f : Fiber) (val : jsstring) (w' : World) (f' : Fiber) :
  reachable api envCluster w f -> val <> endpoint f ->
  setEndpoint val w f = Some (w', f') ->
  (forall a, a <> connection f -> a <> sendConnection f ->
             a <> connection f' -> a <> sendConnection f' ->
             heap w' !! a = heap w !! a) /\
  endpointAt w' (connection f) = Some (endpoint f) /\
  endpointAt w' (sendConnection f) = Some (endpoint f).
Proof.
  intros Hr Hval Hset.
  destruct (ProviderSteps.reachable_pointsAtEndpoint _ _ _ _ Hr) as [P1 P2].
  apply reachable_consistent in Hr.
  destruct (accepts w val) eqn:Hacc;
    [| now rewrite (setEndpoint_refused w f val Hr Hval Hacc) in Hset].
  apply andb_prop in Hacc as [Hnew Hws].
  destruct (ProviderSteps.setEndpoint_switch_frame w f val Hr Hval Hnew Hws)
    as (w1 & f1 & E & Hc & Hsc & Hframe & H1 & H2).
  rewrite E in Hset. injection Hset as <- <-.
  split.
  - intros a A1 A2 A3 A4. apply Hframe; congruence.
  - split; congruence.
Qed.

Lemma setEndpoint_leaves_other_objects_alone_witness :
  reachable clusterApiUrl None (fst mounted) (snd mounted) /\
  str "https://api.testnet.solana.com" <> endpoint (snd mounted) /\
  setEndpoint (str "https://api.testnet.solana.com") (fst mounted)
    (snd mounted) = Some (switchedTo (str "https://api.testnet.solana.com")) /\
  (forall a, a <> connection (snd mounted) ->
             a <> sendConnection (snd mounted) ->
             a <> connection (snd (switchedTo (str "https://api.testnet.solana.com"))) ->
             a <> sendConnection (snd (switchedTo (str "https://api.testnet.solana.com"))) ->
             heap (fst (switchedTo (str "https://api.testnet.solana.com"))) !! a =
               heap (fst mounted) !! a) /\
  endpointAt (fst (switchedTo (str "https://api.testnet.solana.com")))
    (connection (snd mounted)) = Some (endpoint (snd mounted)) /\
  endpointAt (fst (switchedTo (str "https://api.testnet.solana.com")))
    (sendConnection (snd mounted)) = Some (endpoint (snd mounted)).
Proof.
  assert (Hne : str "https://api.testnet.solana.com" <> endpoint (snd mounted))
    by (intros H; vm_compute in H; discriminate H).
  assert (Hset : setEndpoint (str "https://api.testnet.solana.com")
                   (fst mounted) (snd mounted)
                 = Some (fst (switchedTo (str "https://api.testnet.solana.com")),
                         snd (switchedTo (str "https://api.testnet.solana.com"))))
    by (vm_compute; reflexivity).
  split; [exact mounted_reachable|]. split; [exact Hne|].
  split; [vm_compute; reflexivity|].
  exact (setEndpoint_leaves_other_objects_alone clusterApiUrl None
           (fst mounted) (snd mounted) (str "https://api.testnet.solana.com")
           _ _ mounted_reachable Hne Hset).
Defined.

(** X18.  Whatever the provider exposes is coherent: in every state of a
    mounted provider, both exposed connections are objects created for
    the exposed endpoint URL. *)
Theorem exposed_connections_talk_to_the_exposed_endpoint
    (api : Cluster -> jsstring) (envCluster : option Cluster)
    (w : World) (f : Fiber) :
  reachable api envCluster w f ->
  endpointAt w (cfg_connection (contextValue api envCluster f)) =
    Some (cfg_endpointUrl (contextValue api envCluster f)) /\
  endpointAt w (cfg_sendConnection (contextValue api envCluster f)) =
    Some (cfg_endpointUrl (contextValue api envCluster f)).
Proof.
  intros Hr. exact (ProviderSteps.reachable_pointsAtEndpoint _ _ _ _ Hr).
Qed.

Lemma exposed_connections_talk_to_the_exposed_endpoint_witness :
  reachable clusterApiUrl None (fst mounted) (snd mounted) /\
  endpointAt (fst mounted)
    (cfg_connection (contextValue clusterApiUrl None (snd mounted))) =
    Some (cfg_endpointUrl (contextValue clusterApiUrl None (snd mounted))) /\
  endpointAt (fst mounted)
    (cfg_sendConnection (contextValue clusterApiUrl None (snd mounted))) =
    Some (cfg_endpointUrl (contextValue clusterApiUrl None (snd mounted))).
Proof.
  split; [exact mounted_reachable|].
  exact (exposed_connections_talk_to_the_exposed_endpoint clusterApiUrl None
           (fst mounted) (snd mounted) mounted_reachable).
Defined.

(** X19.  When the stored endpoint string is literally a cluster name,
    the exposed network identifier is that name, whatever the default
    cluster is: every entry of [ENDPOINTS] is filed under its own
    [name]. *)
Theorem network_of_a_cluster_name
    (api : Cluster -> jsstring) (envCluster : option Cluster) (c : Cluster) :
  ENDPOINTS_get api (clusterName c) = Some (VEndpoint (endpointOf api c)) /\
  network api envCluster (clusterName c) = Some (clusterName c).
Proof.
  unfold network, ENDPOINTS_get.
  rewrite ProviderSteps.ENDPOINTS_own. simpl.
  now rewrite name_endpointOf.
Qed.

(** X20.  Mounting starts from the stored endpoint, or from the default
    one when nothing is stored.  When the library takes that endpoint,
    mounting succeeds: it creates two new Connection objects, distinct
    from one another, and touches no other object.  When the library
    refuses it, in the constructor or in the websocket client, mounting
    throws. *)
Theorem mount_creates_two_connections
    (api : Cluster -> jsstring) (envCluster : option Cluster) (w : World) :
  wellFormed w ->
  let initial :=
    useLocalStorage_initial KEY_ENDPOINT
      (endpointUrl (DEFAULT_ENDPOINT api envCluster)) w in
  (constructs (web3 w) initial = true -> subscribes (web3 w) initial = true ->
   exists w' f,
     mount api envCluster w = Some (w', f) /\
     endpoint f = initial /\
     connection f = nextAddress w /\
     sendConnection f = S (nextAddress w) /\
     heap w !! connection f = None /\
     heap w !! sendConnection f = None /\
     nextAddress w' = S (S (nextAddress w)) /\
     (forall a, a <> connection f -> a <> sendConnection f ->
                heap w' !! a = heap w !! a)) /\
  (constructs (web3 w) initial = false \/ subscribes (web3 w) initial = false ->
   mount api envCluster w = None).
Proof.
  intros Hwf. cbv zeta. split.
  - intros Hnew Hws.
    destruct (ProviderSteps.mount_runs api envCluster w Hnew Hws)
      as (w' & f & E & Hc & Hsc & Hn & Hframe).
    exists w', f. rewrite Hc, Hsc.
    split; [exact E|]. split.
    { clear -E Hnew Hws. unfold mount in E. cbv zeta in E.
      repeat match type of E with
             | (?m ≫= _) = Some _ =>
                 destruct m as [[? ?]|] eqn:?; simpl in E; [|discriminate E]
             end.
      now injection E as <- <-. }
    repeat split; try assumption; apply Hwf; lia.
  - intros Hno. apply ProviderSteps.mount_refused. unfold accepts.
    destruct Hno as [-> | ->]; [reflexivity | apply andb_false_r].
Qed.

Lemma mount_creates_two_connections_witness :
  wellFormed emptyWorld /\
  constructs (web3 emptyWorld) (str "https://api.devnet.solana.com") = true /\
  subscribes (web3 emptyWorld) (str "https://api.devnet.solana.com") = true /\
  exists w' f,
    mount clusterApiUrl None emptyWorld = Some (w', f) /\
    endpoint f = str "https://api.devnet.solana.com" /\
    connection f = nextAddress emptyWorld /\
    sendConnection f = S (nextAddress emptyWorld) /\
    heap emptyWorld !! connection f = None /\
    heap emptyWorld !! sendConnection f = None /\
    nextAddress w' = S (S (nextAddress emptyWorld)) /\
    (forall a, a <> connection f -> a <> sendConnection f ->
               heap w' !! a = heap emptyWorld !! a).
Proof.
  split; [exact emptyWorld_wellFormed|].
  split; [reflexivity|]. split; [reflexivity|].
  exact (proj1 (mount_creates_two_connections clusterApiUrl None emptyWorld
                  emptyWorld_wellFormed)
               eq_refl eq_refl).
Defined.
